(** * react-todo: the Express backend of [server.js], embedded and verified

    The development follows the file top to bottom: the JavaScript values the
    handlers inspect, the string primitives they call, the two tables behind
    [pool.query], the [authenticateToken] middleware and the route handlers.
    Every handler is a state-passing function over the store; a thrown
    JavaScript error is a value of the error monad [M]. *)

From Stdlib Require Import List String Ascii ZArith Bool Lia Arith DecimalString.
From Stdlib Require Import Sorted Permutation.
Import ListNotations.

Local Open Scope string_scope.
Local Open Scope list_scope.

(** ** JavaScript strings

    A string is the sequence of UTF-8 bytes of the text; [length] counts
    UTF-16 code units, as [.length] does.  The white space that
    [String.prototype.trim] strips is that of ECMAScript: TAB, LF, VT, FF, CR
    and SPACE, one byte each, and U+00A0, U+1680, U+2000 to U+200A, U+2028,
    U+2029, U+202F, U+205F, U+3000 and U+FEFF in their encodings of two and
    three bytes.  Case folding is modelled on the ASCII range, where
    [String.prototype.toLowerCase] folds [A-Z] only, and the regular
    expression reads a string byte by byte, its class [\s] being [is_space];
    JavaScript folds letters beyond that range and matches by code point, so
    the theorems that depend on either take their strings in ASCII
    ([is_ascii], [plain]). *)
Module JsString.

Definition is_space (c : ascii) : bool :=
  let n := nat_of_ascii c in
  ((9 <=? n)%nat && (n <=? 13)%nat) || (n =? 32)%nat.

Definition byte_is (c : ascii) (n : nat) : bool := (nat_of_ascii c =? n)%nat.

(** U+00A0, the bytes [C2 A0]. *)
Definition is_space2 (c d : ascii) : bool := byte_is c 194 && byte_is d 160.

(** U+1680 is [E1 9A 80]; U+2000 to U+200A, U+2028, U+2029 and U+202F are
    [E2 80 80] to [E2 80 8A], [E2 80 A8], [E2 80 A9] and [E2 80 AF]; U+205F
    is [E2 81 9F]; U+3000 is [E3 80 80]; U+FEFF is [EF BB BF]. *)
Definition is_space3 (c d e : ascii) : bool :=
  let n := nat_of_ascii e in
  (byte_is c 225 && (byte_is d 154 && byte_is e 128))
  || (byte_is c 226
      && ((byte_is d 128
           && (((128 <=? n)%nat && (n <=? 138)%nat)
               || (n =? 168)%nat || (n =? 169)%nat || (n =? 175)%nat))
          || (byte_is d 129 && byte_is e 159)))
  || (byte_is c 227 && (byte_is d 128 && byte_is e 128))
  || (byte_is c 239 && (byte_is d 187 && byte_is e 191)).

Definition lower_char (c : ascii) : ascii :=
  let n := nat_of_ascii c in
  if ((65 <=? n)%nat && (n <=? 90)%nat) then ascii_of_nat (n + 32) else c.

(** [s.toLowerCase()] *)
Fixpoint toLowerCase (s : string) : string :=
  match s with
  | EmptyString => EmptyString
  | String c r => String (lower_char c) (toLowerCase r)
  end.

(** [s.trimStart()]: the white-space characters [s] starts with are
    dropped. *)
Fixpoint trimStart (s : string) : string :=
  match s with
  | EmptyString => EmptyString
  | String c r =>
      if is_space c then trimStart r
      else
        match r with
        | EmptyString => s
        | String d r1 =>
            if is_space2 c d then trimStart r1
            else
              match r1 with
              | EmptyString => s
              | String e r2 => if is_space3 c d e then trimStart r2 else s
              end
        end
  end.

(** [s.trimEnd()]: [s] is cut where what is left is white space only. *)
Fixpoint trimEnd (s : string) : string :=
  match s with
  | EmptyString => EmptyString
  | String c r =>
      match trimStart s with
      | EmptyString => EmptyString
      | _ => String c (trimEnd r)
      end
  end.

(** [s.trim()] *)
Definition trim (s : string) : string := trimEnd (trimStart s).

(** [s.split(' ')]: one piece per space-delimited field, empty fields kept;
    the empty string splits into one empty piece. *)
Fixpoint split_space (s : string) : list string :=
  match s with
  | EmptyString => [EmptyString]
  | String c r =>
      if Ascii.eqb c " "%char then EmptyString :: split_space r
      else match split_space r with
           | piece :: rest => String c piece :: rest
           | [] => [String c EmptyString]
           end
  end.

(** A string of [n] copies of [c], as ['a'.repeat(n)]. *)
Fixpoint repeat_char (c : ascii) (n : nat) : string :=
  match n with
  | O => EmptyString
  | S k => String c (repeat_char c k)
  end.

Definition is_digit (c : ascii) : bool :=
  let n := nat_of_ascii c in (48 <=? n)%nat && (n <=? 57)%nat.

Fixpoint digits_value (acc : Z) (s : string) : option Z :=
  match s with
  | EmptyString => Some acc
  | String c r =>
      if is_digit c
      then digits_value (10 * acc + Z.of_nat (nat_of_ascii c - 48)) r
      else None
  end.

(** A signed decimal integer literal: an optional sign and at least one
    digit. *)
Definition parse_integer (s : string) : option Z :=
  match s with
  | EmptyString => None
  | String c r =>
      if Ascii.eqb c "-"%char then
        match r with
        | EmptyString => None
        | _ => option_map Z.opp (digits_value 0 r)
        end
      else if Ascii.eqb c "+"%char then
        match r with
        | EmptyString => None
        | _ => digits_value 0 r
        end
      else digits_value 0 s
  end.

(** The decimal rendering of an integer, as [String(n)]. *)
Definition of_Z (n : Z) : string := NilZero.string_of_int (Z.to_int n).

(** Every character of [s] is in the ASCII range. *)
Fixpoint is_ascii (s : string) : bool :=
  match s with
  | EmptyString => true
  | String c r => (nat_of_ascii c <? 128)%nat && is_ascii r
  end.

(** The character NUL occurs in [s]. *)
Fixpoint has_nul (s : string) : bool :=
  match s with
  | EmptyString => false
  | String c r => (nat_of_ascii c =? 0)%nat || has_nul r
  end.

(** ASCII text without NUL: the strings on which this model's
    [toLowerCase], [trim] and [\s] are JavaScript's and which the database
    stores as they are. *)
Definition plain (s : string) : bool := is_ascii s && negb (has_nul s).

(** The UTF-16 code units a byte of UTF-8 opens: none for a continuation
    byte, two for the lead byte of a four-byte sequence, one otherwise. *)
Definition code_units (c : ascii) : nat :=
  let n := nat_of_ascii c in
  if (n <? 128)%nat then 1%nat
  else if (n <? 192)%nat then 0%nat
  else if (n <? 240)%nat then 1%nat
  else 2%nat.

(** [s.length]: the number of UTF-16 code units of the text. *)
Fixpoint length (s : string) : nat :=
  match s with
  | EmptyString => 0%nat
  | String c r => (code_units c + length r)%nat
  end.

End JsString.

(** ** JavaScript values

    What [express.json()] leaves in [req.body], and what a handler reads out
    of it.  Numbers are the integers: the handlers only test a number for
    truthiness, for its type, and against the constant 6. *)
#[warnings="-register-all"]
Inductive JsVal : Type :=
| JUndefined
| JNull
| JBool (b : bool)
| JNum (n : Z)
| JStr (s : string)
| JArr (items : list JsVal)
| JObj (fields : list (string * JsVal)).

(** A thrown value: [err.name], [err.code] and [err.message]. *)
Record JsError : Type := mkError {
  err_name : string;
  err_code : option string;
  err_message : string
}.

Definition TypeError (msg : string) : JsError :=
  mkError "TypeError" None msg.

Module Js.

(** [!v] is [negb (truthy v)]. *)
Definition truthy (v : JsVal) : bool :=
  match v with
  | JUndefined | JNull => false
  | JBool b => b
  | JNum n => negb (n =? 0)%Z
  | JStr s => negb (String.eqb s "")
  | JArr _ | JObj _ => true
  end.


(** The own property [k] of an object, whose fields list each key once. *)
Fixpoint lookup (k : string) (fields : list (string * JsVal)) : JsVal :=
  match fields with
  | [] => JUndefined
  | (k', v) :: rest => if String.eqb k k' then v else lookup k rest
  end.

(** [const { k } = o]: destructuring [undefined] or [null] throws; an
    object yields its own property; any other value has none of the
    properties the handlers ask for. *)
Definition destructure (o : JsVal) (k : string) : JsError + JsVal :=
  match o with
  | JUndefined =>
      inl (TypeError ("Cannot destructure property '" ++ k
                      ++ "' of 'req.body' as it is undefined.")%string)
  | JNull =>
      inl (TypeError ("Cannot destructure property '" ++ k
                      ++ "' of 'req.body' as it is null.")%string)
  | JObj fields => inr (lookup k fields)
  | _ => inr JUndefined
  end.

(** [String(v)], as the regular expression's [test] coerces its argument. *)
Fixpoint to_string (v : JsVal) : string :=
  match v with
  | JUndefined => "undefined"
  | JNull => "null"
  | JBool true => "true"
  | JBool false => "false"
  | JNum n => JsString.of_Z n
  | JStr s => s
  | JArr items =>
      (fix join (l : list JsVal) : string :=
         match l with
         | [] => ""
         | x :: rest =>
             let sx := match x with
                       | JUndefined | JNull => ""
                       | _ => to_string x
                       end in
             match rest with
             | [] => sx
             | _ => (sx ++ "," ++ join rest)%string
             end
         end) items
  | JObj _ => "[object Object]"
  end.

(** [Number(v)]; [None] is NaN.  A numeric string is a decimal integer
    literal between optional white space; any other non-empty string is
    read as NaN. *)
Definition string_to_number (s : string) : option Z :=
  match JsString.trim s with
  | EmptyString => Some 0%Z
  | t => JsString.parse_integer t
  end.

Definition to_number (v : JsVal) : option Z :=
  match v with
  | JUndefined => None
  | JNull => Some 0%Z
  | JBool b => Some (if b then 1 else 0)%Z
  | JNum n => Some n
  | JStr s => string_to_number s
  | JArr _ | JObj _ => string_to_number (to_string v)
  end.

(** [v.length] *)
Definition length_of (v : JsVal) : JsVal :=
  match v with
  | JStr s => JNum (Z.of_nat (JsString.length s))
  | JArr items => JNum (Z.of_nat (List.length items))
  | JObj fields => lookup "length" fields
  | _ => JUndefined
  end.

(** [v < k] for a number [k]: false when [v] converts to NaN. *)
Definition less_than (v : JsVal) (k : Z) : bool :=
  match to_number v with
  | Some n => (n <? k)%Z
  | None => false
  end.

End Js.

(** ** The regular expression of the register handler

    A small regular-expression matcher by derivatives, enough for
    [/^[^\s@]+@[^\s@]+\.[^\s@]+$/].  The pattern is anchored at both ends, so
    [test] is a match of the whole string. *)
Module Regex.

Inductive t : Type :=
| Fail
| Eps
| Class (p : ascii -> bool)
| Seq (r1 r2 : t)
| Alt (r1 r2 : t)
| Star (r : t).

Fixpoint nullable (r : t) : bool :=
  match r with
  | Fail => false
  | Eps => true
  | Class _ => false
  | Seq r1 r2 => nullable r1 && nullable r2
  | Alt r1 r2 => nullable r1 || nullable r2
  | Star _ => true
  end.

Fixpoint deriv (c : ascii) (r : t) : t :=
  match r with
  | Fail => Fail
  | Eps => Fail
  | Class p => if p c then Eps else Fail
  | Seq r1 r2 =>
      if nullable r1 then Alt (Seq (deriv c r1) r2) (deriv c r2)
      else Seq (deriv c r1) r2
  | Alt r1 r2 => Alt (deriv c r1) (deriv c r2)
  | Star r0 => Seq (deriv c r0) (Star r0)
  end.

Fixpoint matches (r : t) (s : string) : bool :=
  match s with
  | EmptyString => nullable r
  | String c rest => matches (deriv c r) rest
  end.

Definition char (c : ascii) : t := Class (Ascii.eqb c).
Definition plus (r : t) : t := Seq r (Star r).

End Regex.

(** [[^\s@]] *)
Definition not_space_or_at (c : ascii) : bool :=
  negb (JsString.is_space c || Ascii.eqb c "@"%char).

(** [const emailRegex = /^[^\s@]+@[^\s@]+\.[^\s@]+$/] *)
Definition emailRegex : Regex.t :=
  Regex.Seq (Regex.plus (Regex.Class not_space_or_at))
    (Regex.Seq (Regex.char "@"%char)
       (Regex.Seq (Regex.plus (Regex.Class not_space_or_at))
          (Regex.Seq (Regex.char "."%char)
             (Regex.plus (Regex.Class not_space_or_at))))).

(** [emailRegex.test(v)] *)
Definition emailRegex_test (v : JsVal) : bool :=
  Regex.matches emailRegex (Js.to_string v).

(** ** Tokens, tables and responses *)

(** The payload the server signs: [{ userId, email }].  [userId] is the
    account's [id] column. *)
Record Claims : Type := mkClaims {
  userId : Z;
  claim_email : string
}.

(** A row of [users]. *)
Record User : Type := mkUser {
  user_id : Z;
  user_email : string;
  user_password_hash : string;
  user_created_at : Z
}.

(** A row of [todos]. *)
Record Todo : Type := mkTodo {
  todo_id : Z;
  todo_text : string;
  todo_completed : bool;
  todo_user_id : Z;
  todo_created_at : Z
}.

(** The columns [id, email, created_at] that leave the server. *)
Record PublicUser : Type := mkPublicUser {
  pu_id : Z;
  pu_email : string;
  pu_created_at : Z
}.

Definition public_user (u : User) : PublicUser :=
  mkPublicUser (user_id u) (user_email u) (user_created_at u).

(** The statements [pool.query] is called with, with their parameters. *)
Inductive Sql : Type :=
| InsertUser (email password_hash : string)
| SelectUserByEmail (email : string)
| SelectUserById (id : Z)
| SelectTodos (user : Z)
| InsertTodo (text : string) (completed : bool) (user : Z)
| UpdateTodo (completed : bool) (id : string) (user : Z)
| DeleteTodo (id : string) (user : Z)
| SelectOne.

(** The database: both tables in insertion order, the two [BIGSERIAL]
    sequences, and the statements executed so far. *)
Record Store : Type := mkStore {
  users : list User;
  todos : list Todo;
  users_id_seq : Z;
  todos_id_seq : Z;
  query_log : list Sql
}.

(** The state after [initializeDatabase] on an empty database. *)
Definition empty_store : Store := mkStore [] [] 1 1 [].

(** What a request finds outside the process: the server clock in seconds
    (for token expiry), the database clock (for [NOW()]), the salt bcrypt
    draws, and whether the database connection fails. *)
Record Env : Type := mkEnv {
  server_time : Z;
  db_time : Z;
  salt : string;
  fault : option JsError
}.

(** The JSON bodies the handlers send, by shape. *)
Inductive Body : Type :=
| ErrorBody (error : string)
| ErrorDetails (error details : string)
| DataSession (user : PublicUser) (token : string)
| DataUser (user : PublicUser)
| DataTodos (rows : list Todo)
| DataTodo (row : Todo)
| DataUndefined
| MessageBody (message : string)
| HealthOk
| HealthDown (message error : string).

(** The top-level keys of the JSON object sent. *)
Definition body_keys (b : Body) : list string :=
  match b with
  | ErrorBody _ => ["error"]
  | ErrorDetails _ _ => ["error"; "details"]
  | DataSession _ _ | DataUser _ | DataTodos _ | DataTodo _ => ["data"]
  | DataUndefined => []
  | MessageBody _ => ["message"]
  | HealthOk => ["message"; "database"; "endpoints"]
  | HealthDown _ _ => ["message"; "error"]
  end.

Record Response : Type := mkResponse {
  status : Z;
  body : Body
}.

(** [res.json(b)] with the default status. *)
Definition json (b : Body) : Response := mkResponse 200 b.

(** The to-do rows a response carries. *)
Definition response_todos (r : Response) : list Todo :=
  match body r with
  | DataTodos rows => rows
  | DataTodo row => [row]
  | _ => []
  end.

(** The parts of [req] the handlers read: [req.headers['authorization']],
    [req.params.id] and [req.body]. *)
Record Request : Type := mkRequest {
  authorization : option string;
  params_id : string;
  req_body : JsVal
}.

(** ** The libraries and the database engine

    [jsonwebtoken], [bcrypt] and PostgreSQL's input conversion for [BIGINT]
    are taken at their interface. *)
Class Collaborators : Type := {
  (** the payload and the [exp] claim of a structurally valid token *)
  jwt_decode : string -> option (Claims * Z);
  (** whether the token's signature verifies under [JWT_SECRET] *)
  jwt_signature_ok : string -> bool;
  (** [jwt.sign(payload, JWT_SECRET, { expiresIn })]: payload, [iat], [exp] *)
  jwt_sign : Claims -> Z -> Z -> string;
  (** [bcrypt.hash] on a string, under a salt *)
  bcrypt_hash : string -> string -> string;
  (** [bcrypt.compare] on a string and a stored hash *)
  bcrypt_compare : string -> string -> bool;
  (** the text of a parameter read as a [BIGINT], if it is one *)
  pg_int8in : string -> option Z
}.

(** ** Handler computations

    The body of a [try] block reads and writes the store and may throw. *)
Definition M (A : Type) : Type := Store -> (JsError + A) * Store.

Definition ret {A : Type} (a : A) : M A := fun s => (inr a, s).

Definition lift {A : Type} (r : JsError + A) : M A := fun s => (r, s).

Definition bind {A B : Type} (m : M A) (k : A -> M B) : M B :=
  fun s =>
    match m s with
    | (inr a, s') => k a s'
    | (inl e, s') => (inl e, s')
    end.

Notation "x <- m ;; k" := (bind m (fun x => k))
  (at level 61, m at next level, right associativity).

(** [try { body } catch (err) { on_error }]; the [console.error] of a
    [catch] block writes to the server's log only and is left out. *)
Definition try_catch (body : M Response) (on_error : JsError -> Response)
  : Store -> Response * Store :=
  fun s =>
    match body s with
    | (inr r, s') => (r, s')
    | (inl err, s') => (on_error err, s')
    end.

(** A computation keeps a property of the store. *)
Definition preserves {A : Type} (P : Store -> Prop) (m : M A) : Prop :=
  forall s, P s -> P (snd (m s)).

(** Whatever a computation returns satisfies [Q]. *)
Definition returns {A : Type} (Q : A -> Prop) (m : M A) : Prop :=
  forall s, match fst (m s) with
            | inr a => Q a
            | inl _ => True
            end.

(** [const JWT_EXPIRES_IN = '7d'], in seconds. *)
Definition JWT_EXPIRES_IN : Z := 7 * 24 * 60 * 60.

(** ** The database engine

    Each statement text of [server.js] is one function on the tables created
    by [initializeDatabase]: [users.email] is [UNIQUE], [todos.user_id]
    [REFERENCES users(id)], both [id] columns are [BIGSERIAL]. *)

(** An error raised by the engine, with its SQLSTATE in [err.code]. *)
Definition pg_error (code msg : string) : JsError :=
  mkError "error" (Some code) msg.

(** A text parameter holding NUL is refused when the statement is bound,
    before any row is read or written: SQLSTATE 22021. *)
Definition invalid_text : JsError :=
  pg_error "22021"
    ("invalid byte sequence for encoding "
     ++ String "034"%char ("UTF8" ++ String "034"%char ": 0x00"))%string.

Definition log_query (q : Sql) (s : Store) : Store :=
  mkStore (users s) (todos s) (users_id_seq s) (todos_id_seq s)
          (query_log s ++ [q]).

(** [await pool.query(text, params)]: the statement is sent; it fails when
    the connection does. *)
Definition pool_query {A : Type} (env : Env) (q : Sql)
    (run : Store -> (JsError + A) * Store) : M A :=
  fun s =>
    let s1 := log_query q s in
    match fault env with
    | Some e => (inl e, s1)
    | None => run s1
    end.

(** [ORDER BY created_at DESC], as a stable insertion sort: rows with equal
    [created_at] stay in table order, where the engine promises no order. *)
Fixpoint insert_desc (x : Todo) (l : list Todo) : list Todo :=
  match l with
  | [] => [x]
  | y :: rest =>
      if (todo_created_at y <=? todo_created_at x)%Z then x :: l
      else y :: insert_desc x rest
  end.

Fixpoint order_by_created_at_desc (l : list Todo) : list Todo :=
  match l with
  | [] => []
  | x :: rest => insert_desc x (order_by_created_at_desc rest)
  end.

(** [INSERT INTO users (email, password_hash) VALUES ($1, $2)
     RETURNING id, email, created_at] *)
Definition sql_insert_user (env : Env) (email password_hash : string)
  : M (list User) :=
  pool_query env (InsertUser email password_hash) (fun s =>
    let id := users_id_seq s in
    let s1 := mkStore (users s) (todos s) (id + 1) (todos_id_seq s)
                      (query_log s) in
    if JsString.has_nul email then (inl invalid_text, s)
    else if existsb (fun u => String.eqb (user_email u) email) (users s) then
      (inl (pg_error "23505"
              "duplicate key value violates unique constraint users_email_key"),
       s1)
    else
      let u := mkUser id email password_hash (db_time env) in
      (inr [u],
       mkStore (users s ++ [u]) (todos s) (id + 1) (todos_id_seq s)
               (query_log s))).

(** [SELECT * FROM users WHERE email = $1] *)
Definition sql_select_user_by_email (env : Env) (email : string)
  : M (list User) :=
  pool_query env (SelectUserByEmail email) (fun s =>
    if JsString.has_nul email then (inl invalid_text, s)
    else
      (inr (filter (fun u => String.eqb (user_email u) email) (users s)), s)).

(** [SELECT id, email, created_at FROM users WHERE id = $1] *)
Definition sql_select_user_by_id (env : Env) (id : Z) : M (list PublicUser) :=
  pool_query env (SelectUserById id) (fun s =>
    (inr (map public_user
            (filter (fun u => (user_id u =? id)%Z) (users s))), s)).

(** [SELECT * FROM todos WHERE user_id = $1 ORDER BY created_at DESC] *)
Definition sql_select_todos (env : Env) (user : Z) : M (list Todo) :=
  pool_query env (SelectTodos user) (fun s =>
    (inr (order_by_created_at_desc
            (filter (fun t => (todo_user_id t =? user)%Z) (todos s))), s)).

(** [INSERT INTO todos (text, completed, user_id, created_at)
     VALUES ($1, $2, $3, NOW()) RETURNING *] *)
Definition sql_insert_todo (env : Env) (text : string) (completed : bool)
    (user : Z) : M (list Todo) :=
  pool_query env (InsertTodo text completed user) (fun s =>
    let id := todos_id_seq s in
    if JsString.has_nul text then (inl invalid_text, s)
    else if existsb (fun u => (user_id u =? user)%Z) (users s) then
      let t := mkTodo id text completed user (db_time env) in
      (inr [t],
       mkStore (users s) (todos s ++ [t]) (users_id_seq s) (id + 1)
               (query_log s))
    else
      (inl (pg_error "23503"
              "insert or update on table todos violates foreign key constraint todos_user_id_fkey"),
       mkStore (users s) (todos s) (users_id_seq s) (id + 1) (query_log s))).

(** [WHERE id = $i AND user_id = $u] *)
Definition owned_row (id user : Z) (t : Todo) : bool :=
  (todo_id t =? id)%Z && (todo_user_id t =? user)%Z.

Definition set_completed (completed : bool) (t : Todo) : Todo :=
  mkTodo (todo_id t) (todo_text t) completed (todo_user_id t)
         (todo_created_at t).

Section Server.

Context `{Collaborators}.

(** The engine reads the text of [$id] as a [BIGINT] before it looks at any
    row; text that is not one is SQLSTATE 22P02.  (The engine's message also
    quotes the value, and an integer out of range is SQLSTATE 22003 with a
    message of its own; the handlers look at neither.) *)
Definition invalid_bigint (id : string) : JsError :=
  pg_error "22P02" ("invalid input syntax for type bigint: " ++ id)%string.

(** [UPDATE todos SET completed = $1 WHERE id = $2 AND user_id = $3
     RETURNING *] *)
Definition sql_update_todo (env : Env) (completed : bool) (id : string)
    (user : Z) : M (list Todo) :=
  pool_query env (UpdateTodo completed id user) (fun s =>
    match pg_int8in id with
    | None => (inl (invalid_bigint id), s)
    | Some n =>
        let todos' :=
          map (fun t => if owned_row n user t then set_completed completed t
                        else t) (todos s) in
        (inr (map (set_completed completed)
                (filter (owned_row n user) (todos s))),
         mkStore (users s) todos' (users_id_seq s) (todos_id_seq s)
                 (query_log s))
    end).

(** [DELETE FROM todos WHERE id = $1 AND user_id = $2]; the result is
    [rowCount]. *)
Definition sql_delete_todo (env : Env) (id : string) (user : Z) : M nat :=
  pool_query env (DeleteTodo id user) (fun s =>
    match pg_int8in id with
    | None => (inl (invalid_bigint id), s)
    | Some n =>
        (inr (List.length (filter (owned_row n user) (todos s))),
         mkStore (users s)
                 (filter (fun t => negb (owned_row n user t)) (todos s))
                 (users_id_seq s) (todos_id_seq s) (query_log s))
    end).

(** [SELECT 1] *)
Definition sql_select_one (env : Env) : M unit :=
  pool_query env SelectOne (fun s => (inr tt, s)).

(** ** Library calls *)

(** Modelled from the spec: [jwt.verify(token, JWT_SECRET)] of the
    jsonwebtoken package, which is not under src/.  A token that is
    structurally invalid or whose signature does not match is rejected with
    a [JsonWebTokenError]; a token whose signature is valid and whose expiry
    has passed with a [TokenExpiredError]; otherwise the payload is
    returned. *)
Definition jwt_verify (now : Z) (token : string) : JsError + Claims :=
  match jwt_decode token with
  | None => inl (mkError "JsonWebTokenError" None "jwt malformed")
  | Some (payload, exp) =>
      if negb (jwt_signature_ok token) then
        inl (mkError "JsonWebTokenError" None "invalid signature")
      else if (exp <=? now)%Z then
        inl (mkError "TokenExpiredError" None "jwt expired")
      else inr payload
  end.

(** [await bcrypt.hash(password, SALT_ROUNDS)]: the package rejects data
    that is not a string. *)
Definition hash_password (env : Env) (password : JsVal) : JsError + string :=
  match password with
  | JStr p => inr (bcrypt_hash (salt env) p)
  | _ => inl (mkError "Error" None
                "data must be a string or Buffer and salt must either be a salt string or a number of rounds")
  end.

(** [await bcrypt.compare(password, user.password_hash)] *)
Definition compare_password (password : JsVal) (hash : string)
  : JsError + bool :=
  match password with
  | JStr p => inr (bcrypt_compare p hash)
  | _ => inl (mkError "Error" None "data and hash must be strings")
  end.

(** [email.toLowerCase().trim()]: only a string has the method. *)
Definition toLowerCase_trim (email : JsVal) : JsError + string :=
  match email with
  | JStr s => inr (JsString.trim (JsString.toLowerCase s))
  | _ => inl (TypeError "email.toLowerCase is not a function")
  end.

(** [text.trim() === ''] *)
Definition trim_is_empty (text : JsVal) : JsError + bool :=
  match text with
  | JStr s => inr (String.eqb (JsString.trim s) "")
  | _ => inl (TypeError "text.trim is not a function")
  end.

(** A value passed as the [TEXT] parameter of a statement. *)
Definition text_param (v : JsVal) : string :=
  match v with
  | JStr s => s
  | _ => Js.to_string v
  end.

(** [const user = result.rows[0]] followed by [user.id]. *)
Definition first_user (rows : list User) : JsError + User :=
  match rows with
  | u :: _ => inr u
  | [] => inl (TypeError "Cannot read properties of undefined (reading 'id')")
  end.

(** ** The authentication middleware *)

(** What the middleware does with a request: call [next()] with [req.user]
    set, or answer itself. *)
Inductive Gate : Type :=
| Next (user : Claims)
| Rejected (r : Response).

(** [const token = authHeader && authHeader.split(' ')[1]]; [None] is
    [undefined]. *)
Definition header_token (authHeader : option string) : option string :=
  match authHeader with
  | None => None
  | Some h =>
      if String.eqb h "" then Some ""
      else nth_error (JsString.split_space h) 1
  end.

Definition authenticateToken (env : Env) (req : Request) : Gate :=
  let authHeader := authorization req in
  let token := header_token authHeader in
  match token with
  | None | Some EmptyString =>
      Rejected (mkResponse 401 (ErrorBody "로그인이 필요합니다."))
  | Some token =>
      match jwt_verify (server_time env) token with
      | inr decoded => Next decoded
      | inl err =>
          if String.eqb (err_name err) "TokenExpiredError" then
            Rejected (mkResponse 401
              (ErrorBody "로그인이 만료되었습니다. 다시 로그인해주세요."))
          else
            Rejected (mkResponse 403 (ErrorBody "유효하지 않은 토큰입니다."))
      end
  end.

(** A route registered as [app.METHOD(path, authenticateToken, handler)]. *)
Definition protected (env : Env) (req : Request)
    (handler : Claims -> Store -> Response * Store)
  : Store -> Response * Store :=
  fun s =>
    match authenticateToken env req with
    | Next user => handler user s
    | Rejected r => (r, s)
    end.

(** ** [POST /api/auth/register] *)
Definition register (env : Env) (req : Request) : Store -> Response * Store :=
  try_catch
    (email <- lift (Js.destructure (req_body req) "email") ;;
     password <- lift (Js.destructure (req_body req) "password") ;;
     if negb (Js.truthy email) || negb (Js.truthy password) then
       ret (mkResponse 400 (ErrorBody "이메일과 비밀번호를 입력해주세요."))
     else if negb (emailRegex_test email) then
       ret (mkResponse 400 (ErrorBody "올바른 이메일 형식을 입력해주세요."))
     else if Js.less_than (Js.length_of password) 6 then
       ret (mkResponse 400 (ErrorBody "비밀번호는 6자 이상이어야 합니다."))
     else
       passwordHash <- lift (hash_password env password) ;;
       normalized <- lift (toLowerCase_trim email) ;;
       rows <- sql_insert_user env normalized passwordHash ;;
       user <- lift (first_user rows) ;;
       let token :=
         jwt_sign (mkClaims (user_id user) (user_email user))
                  (server_time env) (server_time env + JWT_EXPIRES_IN) in
       ret (json (DataSession (public_user user) token)))
    (fun err =>
       if match err_code err with
          | Some code => String.eqb code "23505"
          | None => false
          end
       then mkResponse 409 (ErrorBody "이미 가입된 이메일입니다.")
       else mkResponse 500
              (ErrorDetails "서버 오류가 발생했습니다." (err_message err))).

(** ** [POST /api/auth/login] *)
Definition login (env : Env) (req : Request) : Store -> Response * Store :=
  try_catch
    (email <- lift (Js.destructure (req_body req) "email") ;;
     password <- lift (Js.destructure (req_body req) "password") ;;
     if negb (Js.truthy email) || negb (Js.truthy password) then
       ret (mkResponse 400 (ErrorBody "이메일과 비밀번호를 입력해주세요."))
     else
       normalized <- lift (toLowerCase_trim email) ;;
       rows <- sql_select_user_by_email env normalized ;;
       match rows with
       | [] =>
           ret (mkResponse 401
                  (ErrorBody "이메일 또는 비밀번호가 올바르지 않습니다."))
       | user :: _ =>
           isValidPassword <-
             lift (compare_password password (user_password_hash user)) ;;
           if negb isValidPassword then
             ret (mkResponse 401
                    (ErrorBody "이메일 또는 비밀번호가 올바르지 않습니다."))
           else
             let token :=
               jwt_sign (mkClaims (user_id user) (user_email user))
                        (server_time env) (server_time env + JWT_EXPIRES_IN) in
             ret (json (DataSession (public_user user) token))
       end)
    (fun err =>
       mkResponse 500
         (ErrorDetails "서버 오류가 발생했습니다." (err_message err))).

(** ** [GET /api/auth/me] *)
Definition me (env : Env) (user : Claims) : Store -> Response * Store :=
  try_catch
    (rows <- sql_select_user_by_id env (userId user) ;;
     match rows with
     | [] => ret (mkResponse 404 (ErrorBody "사용자를 찾을 수 없습니다."))
     | row :: _ => ret (json (DataUser row))
     end)
    (fun err =>
       mkResponse 500
         (ErrorDetails "서버 오류가 발생했습니다." (err_message err))).

(** ** [GET /api/todos] *)
Definition getTodos (env : Env) (user : Claims)
  : Store -> Response * Store :=
  try_catch
    (rows <- sql_select_todos env (userId user) ;;
     ret (json (DataTodos rows)))
    (fun err =>
       if match err_code err with
          | Some code => String.eqb code "42P01"
          | None => false
          end
       then mkResponse 500
              (ErrorBody "todos 테이블이 존재하지 않습니다. 데이터베이스를 확인해주세요.")
       else mkResponse 500
              (ErrorDetails "서버 오류가 발생했습니다." (err_message err))).

(** ** [POST /api/todos] *)
Definition createTodo (env : Env) (user : Claims) (req : Request)
  : Store -> Response * Store :=
  try_catch
    (text <- lift (Js.destructure (req_body req) "text") ;;
     if negb (Js.truthy text) then
       ret (mkResponse 400 (ErrorBody "할 일 내용을 입력해주세요."))
     else
       blank <- lift (trim_is_empty text) ;;
       if blank then
         ret (mkResponse 400 (ErrorBody "할 일 내용을 입력해주세요."))
       else
         rows <- sql_insert_todo env (text_param text) false (userId user) ;;
         match rows with
         | data :: _ => ret (json (DataTodo data))
         | [] => ret (json DataUndefined)
         end)
    (fun err =>
       mkResponse 500
         (ErrorDetails "서버 오류가 발생했습니다." (err_message err))).

(** ** [PATCH /api/todos/:id] *)
Definition updateTodo (env : Env) (user : Claims) (req : Request)
  : Store -> Response * Store :=
  try_catch
    (let id := params_id req in
     completed <- lift (Js.destructure (req_body req) "completed") ;;
     match completed with
     | JBool completed =>
         rows <- sql_update_todo env completed id (userId user) ;;
         match rows with
         | [] => ret (mkResponse 404 (ErrorBody "해당 할 일을 찾을 수 없습니다."))
         | data :: _ => ret (json (DataTodo data))
         end
     | _ =>
         (* typeof completed !== 'boolean' *)
         ret (mkResponse 400
                (ErrorBody "completed는 true 또는 false여야 합니다."))
     end)
    (fun err =>
       mkResponse 500
         (ErrorDetails "서버 오류가 발생했습니다." (err_message err))).

(** ** [DELETE /api/todos/:id] *)
Definition deleteTodo (env : Env) (user : Claims) (req : Request)
  : Store -> Response * Store :=
  try_catch
    (let id := params_id req in
     rowCount <- sql_delete_todo env id (userId user) ;;
     if (rowCount =? 0)%nat then
       ret (mkResponse 404 (ErrorBody "해당 할 일을 찾을 수 없습니다."))
     else ret (json (MessageBody "할 일이 삭제되었습니다.")))
    (fun err =>
       mkResponse 500
         (ErrorDetails "서버 오류가 발생했습니다." (err_message err))).

(** ** [GET /] *)
Definition health (env : Env) : Store -> Response * Store :=
  try_catch
    (_ <- sql_select_one env ;;
     ret (json HealthOk))
    (fun err =>
       mkResponse 500
         (HealthDown "⚠️ 서버는 작동 중이지만 데이터베이스 연결에 문제가 있습니다."
                     (err_message err))).

(** ** The routes *)
Inductive Route : Type :=
| PostAuthRegister
| PostAuthLogin
| GetAuthMe
| GetTodos
| PostTodos
| PatchTodo
| DeleteTodoById
| GetRoot.

(** The handler behind [authenticateToken] on a protected route. *)
Definition route_handler (route : Route) (env : Env) (req : Request)
  : option (Claims -> Store -> Response * Store) :=
  match route with
  | GetAuthMe => Some (me env)
  | GetTodos => Some (getTodos env)
  | PostTodos => Some (fun user => createTodo env user req)
  | PatchTodo => Some (fun user => updateTodo env user req)
  | DeleteTodoById => Some (fun user => deleteTodo env user req)
  | PostAuthRegister | PostAuthLogin | GetRoot => None
  end.

Definition app (route : Route) (env : Env) (req : Request)
  : Store -> Response * Store :=
  match route with
  | PostAuthRegister => register env req
  | PostAuthLogin => login env req
  | GetAuthMe => protected env req (me env)
  | GetTodos => protected env req (getTodos env)
  | PostTodos => protected env req (fun user => createTodo env user req)
  | PatchTodo => protected env req (fun user => updateTodo env user req)
  | DeleteTodoById =>
      protected env req (fun user => deleteTodo env user req)
  | GetRoot => health env
  end.

End Server.

(** ** Stores the server can be in *)

(** The constraints of the schema: both primary keys and [users.email] are
    unique, the sequences are ahead of every assigned [id], and every stored
    email went through [toLowerCase().trim()]. *)
Record store_ok (s : Store) : Prop := mkStoreOk {
  todo_ids_unique : NoDup (map todo_id (todos s));
  todo_ids_assigned :
    forall t, In t (todos s) -> (todo_id t < todos_id_seq s)%Z;
  user_ids_unique : NoDup (map user_id (users s));
  user_ids_assigned :
    forall u, In u (users s) -> (user_id u < users_id_seq s)%Z;
  emails_unique : NoDup (map user_email (users s));
  emails_normalized :
    forall u, In u (users s) ->
      JsString.trim (JsString.toLowerCase (user_email u)) = user_email u
}.

(** The stores reached from the empty database by serving requests. *)
Inductive reachable `{Collaborators} : Store -> Prop :=
| reachable_empty : reachable empty_store
| reachable_step (s : Store) (route : Route) (env : Env) (req : Request) :
    reachable s -> reachable (snd (app route env req s)).

(** No space character occurs in [s]. *)
Fixpoint no_space (s : string) : bool :=
  match s with
  | EmptyString => true
  | String c r => negb (Ascii.eqb c " "%char) && no_space r
  end.

(** [s] starts with no white-space character. *)
Definition starts_clean (s : string) : bool :=
  match s with
  | EmptyString => true
  | String c r =>
      negb (JsString.is_space c)
      && match r with
         | EmptyString => true
         | String d r1 =>
             negb (JsString.is_space2 c d)
             && match r1 with
                | EmptyString => true
                | String e _ => negb (JsString.is_space3 c d e)
                end
         end
  end.

(** ** A small instance

    Concrete collaborators and a two-account store, for running the
    handlers. *)
Module Demo.

Definition alice : Claims := mkClaims 1 "a@x.com".
Definition bob : Claims := mkClaims 2 "b@x.com".

Definition decode (token : string) : option (Claims * Z) :=
  if String.eqb token "tokA" then Some (alice, 2000%Z)
  else if String.eqb token "tokB" then Some (bob, 2000%Z)
  else if String.eqb token "tokA.forged" then Some (alice, 2000%Z)
  else if String.eqb token "tokA.old" then Some (alice, 10%Z)
  else None.

Definition signature_ok (token : string) : bool :=
  negb (String.eqb token "tokA.forged").

Definition sign (payload : Claims) (iat exp : Z) : string :=
  ("tok#" ++ JsString.of_Z (userId payload) ++ "#" ++ JsString.of_Z exp)%string.

Definition hash (salt password : string) : string :=
  ("$2b$10$" ++ salt ++ "$" ++ password)%string.

Definition compare (password stored : string) : bool :=
  String.eqb stored (hash "s" password).

Fixpoint skip_spaces (s : string) : string :=
  match s with
  | EmptyString => EmptyString
  | String c r => if JsString.is_space c then skip_spaces r else s
  end.

Fixpoint drop_spaces (s : string) : string :=
  match s with
  | EmptyString => EmptyString
  | String c r =>
      match drop_spaces r with
      | EmptyString =>
          if JsString.is_space c then EmptyString else String c EmptyString
      | r' => String c r'
      end
  end.

(** The engine's reading of a [BIGINT]: a decimal integer in the range of
    64 bits, with TAB, LF, VT, FF, CR or SPACE allowed around it. *)
Definition int8in (text : string) : option Z :=
  match JsString.parse_integer (drop_spaces (skip_spaces text)) with
  | Some n =>
      if ((- 2 ^ 63 <=? n) && (n <? 2 ^ 63))%Z then Some n else None
  | None => None
  end.

#[export] Instance collaborators : Collaborators := {|
  jwt_decode := decode;
  jwt_signature_ok := signature_ok;
  jwt_sign := sign;
  bcrypt_hash := hash;
  bcrypt_compare := compare;
  pg_int8in := int8in
|}.

Definition env : Env := mkEnv 100 5000 "s" None.

Definition connection_lost : JsError :=
  mkError "Error" None "Connection terminated unexpectedly".

Definition env_down : Env := mkEnv 100 5000 "s" (Some connection_lost).

Definition user_a : User := mkUser 1 "a@x.com" (hash "s" "secret1") 1000.
Definition user_b : User := mkUser 2 "b@x.com" (hash "s" "secret2") 1500.

Definition item_a : Todo := mkTodo 1 "buy milk" false 1 4000.
Definition item_b : Todo := mkTodo 2 "walk dog" false 2 4500.

Definition store : Store := mkStore [user_a; user_b] [item_a; item_b] 3 3 [].

Definition bearer (token : string) : option string :=
  Some ("Bearer " ++ token)%string.

Definition request (auth : option string) (id : string)
    (fields : list (string * JsVal)) : Request :=
  mkRequest auth id (JObj fields).

End Demo.

(** ** Notions used to describe the handlers *)

(** The strings a regular expression stands for. *)
Inductive regex_denotes : Regex.t -> string -> Prop :=
| denotes_eps : regex_denotes Regex.Eps EmptyString
| denotes_class (p : ascii -> bool) (c : ascii) :
    p c = true -> regex_denotes (Regex.Class p) (String c EmptyString)
| denotes_seq (r1 r2 : Regex.t) (s1 s2 : string) :
    regex_denotes r1 s1 -> regex_denotes r2 s2 ->
    regex_denotes (Regex.Seq r1 r2) (s1 ++ s2)%string
| denotes_alt_l (r1 r2 : Regex.t) (s : string) :
    regex_denotes r1 s -> regex_denotes (Regex.Alt r1 r2) s
| denotes_alt_r (r1 r2 : Regex.t) (s : string) :
    regex_denotes r2 s -> regex_denotes (Regex.Alt r1 r2) s
| denotes_star_nil (r : Regex.t) : regex_denotes (Regex.Star r) EmptyString
| denotes_star_app (r : Regex.t) (s1 s2 : string) :
    regex_denotes r s1 -> regex_denotes (Regex.Star r) s2 ->
    regex_denotes (Regex.Star r) (s1 ++ s2)%string.

(** Every character of [s] passes [p]. *)
Fixpoint all_chars (p : ascii -> bool) (s : string) : bool :=
  match s with
  | EmptyString => true
  | String c r => p c && all_chars p r
  end.

(** A non-empty run of characters other than white space and [@]: what
    [[^\s@]+] stands for. *)
Definition email_part (s : string) : Prop :=
  s <> EmptyString /\ all_chars not_space_or_at s = true.

(** The columns of an item that no statement of the server assigns after the
    insert. *)
Definition fixed_columns (t : Todo) : Z * string * Z * Z :=
  (todo_id t, todo_text t, todo_user_id t, todo_created_at t).

(** [x] may come before [y] in a listing: it is not older. *)
Definition not_older (x y : Todo) : Prop :=
  (todo_created_at y <= todo_created_at x)%Z.

(** Both tables and both sequences are those of [s0]. *)
Definition same_data (s0 s : Store) : Prop :=
  users s = users s0 /\ todos s = todos s0
  /\ users_id_seq s = users_id_seq s0 /\ todos_id_seq s = todos_id_seq s0.

(** Every item belongs to an account of the store: the foreign key of
    [todos.user_id]. *)
Definition items_have_owner (s : Store) : Prop :=
  forall t, In t (todos s) ->
    exists u, In u (users s) /\ user_id u = todo_user_id t.

(** ** A second instance, with a token codec that round-trips

    A token is [userId:exp:email] in clear; the signature always verifies.
    Hashing is [Demo]'s. *)
Module Lab.

Fixpoint split_colon (s : string) : option (string * string) :=
  match s with
  | EmptyString => None
  | String c r =>
      if Ascii.eqb c ":"%char then Some (EmptyString, r)
      else match split_colon r with
           | Some (a, b) => Some (String c a, b)
           | None => None
           end
  end.

Definition sign (payload : Claims) (iat exp : Z) : string :=
  (JsString.of_Z (userId payload) ++ ":" ++ JsString.of_Z exp ++ ":"
   ++ claim_email payload)%string.

Definition decode (token : string) : option (Claims * Z) :=
  match split_colon token with
  | Some (uid, rest) =>
      match split_colon rest with
      | Some (exp, email) =>
          match JsString.parse_integer uid, JsString.parse_integer exp with
          | Some u, Some e => Some (mkClaims u email, e)
          | _, _ => None
          end
      | None => None
      end
  | None => None
  end.

Definition collaborators : Collaborators := {|
  jwt_decode := decode;
  jwt_signature_ok := fun _ => true;
  jwt_sign := sign;
  bcrypt_hash := Demo.hash;
  bcrypt_compare := Demo.compare;
  pg_int8in := Demo.int8in
|}.

End Lab.

(** * Facts *)

(** ** Strings *)

Example split_bearer :
  JsString.split_space "Bearer abc.def.ghi" = ["Bearer"; "abc.def.ghi"].
Proof. reflexivity. Qed.

Example split_two_spaces :
  JsString.split_space "Bearer  x" = ["Bearer"; ""; "x"].
Proof. reflexivity. Qed.

Example split_empty : JsString.split_space "" = [""].
Proof. reflexivity. Qed.

Example normalize_sample :
  JsString.trim (JsString.toLowerCase "  User@Email.com ") = "user@email.com".
Proof. reflexivity. Qed.

Example emailRegex_samples :
  map (fun s => emailRegex_test (JStr s))
      ["a@b.c"; "a.b@c.d.e"; "a@b"; "a@@b.c"; "a@.c"; " a@b.c"; "a@b.c "]
  = [true; true; false; false; false; false; false].
Proof. reflexivity. Qed.

Example emailRegex_coerces_array :
  emailRegex_test (JArr [JStr "a@b.c"]) = true.
Proof. reflexivity. Qed.

Lemma split_space_no_space (s : string) :
  no_space s = true -> JsString.split_space s = [s].
Proof.
  induction s as [|c r IH]; simpl; intros Hs.
  - reflexivity.
  - apply andb_true_iff in Hs as [Hc Hr].
    apply negb_true_iff in Hc. rewrite Hc, (IH Hr). reflexivity.
Qed.

Lemma split_space_scheme (scheme rest : string) :
  no_space scheme = true ->
  JsString.split_space (scheme ++ String " " rest)%string
  = scheme :: JsString.split_space rest.
Proof.
  induction scheme as [|c r IH]; simpl; intros Hs.
  - reflexivity.
  - apply andb_true_iff in Hs as [Hc Hr].
    apply negb_true_iff in Hc. rewrite Hc, (IH Hr). reflexivity.
Qed.

Lemma is_space_lower_char (c : ascii) :
  JsString.is_space (JsString.lower_char c) = JsString.is_space c.
Proof. destruct c as [[] [] [] [] [] [] [] []]; reflexivity. Qed.

(** Case folding moves no byte of a wide white-space character. *)
Lemma lower_char_high (c : ascii) :
  JsString.lower_char c = c
  \/ ((nat_of_ascii c < 128)%nat
      /\ (nat_of_ascii (JsString.lower_char c) < 128)%nat).
Proof.
  destruct c as [[] [] [] [] [] [] [] []];
    (now left) || (right; cbv; lia).
Qed.

Lemma is_space2_low (c d : ascii) :
  (nat_of_ascii c < 128)%nat -> JsString.is_space2 c d = false.
Proof.
  intros Hc. unfold JsString.is_space2, JsString.byte_is.
  destruct (Nat.eqb_spec (nat_of_ascii c) 194); [lia | reflexivity].
Qed.

Lemma is_space2_low_r (c d : ascii) :
  (nat_of_ascii d < 128)%nat -> JsString.is_space2 c d = false.
Proof.
  intros Hc. unfold JsString.is_space2, JsString.byte_is.
  destruct (Nat.eqb_spec (nat_of_ascii d) 160); [lia|].
  apply andb_false_r.
Qed.

Lemma is_space3_low (c d e : ascii) :
  (nat_of_ascii c < 128)%nat \/ (nat_of_ascii d < 128)%nat
  \/ (nat_of_ascii e < 128)%nat ->
  JsString.is_space3 c d e = false.
Proof.
  assert (Hne : forall (x : ascii) (k : nat),
            (nat_of_ascii x < 128)%nat -> (128 <= k)%nat ->
            (nat_of_ascii x =? k)%nat = false).
  { intros x k Hx Hk. apply Nat.eqb_neq. lia. }
  unfold JsString.is_space3, JsString.byte_is.
  intros [Hc|[Hd|He]].
  - now rewrite !(Hne c) by (assumption || lia).
  - rewrite !(Hne d) by (assumption || lia). cbn [andb orb].
    now rewrite !andb_false_r.
  - rewrite !(Hne e) by (assumption || lia).
    assert (Hle : (128 <=? nat_of_ascii e)%nat = false)
      by (apply Nat.leb_gt; lia).
    rewrite Hle. cbn [andb orb]. now rewrite !andb_false_r.
Qed.

Lemma is_space2_lower_char (c d : ascii) :
  JsString.is_space2 (JsString.lower_char c) (JsString.lower_char d)
  = JsString.is_space2 c d.
Proof.
  destruct (lower_char_high c) as [->|[Hc Hc']].
  - destruct (lower_char_high d) as [->|[Hd Hd']]; [reflexivity|].
    now rewrite !is_space2_low_r.
  - now rewrite !is_space2_low.
Qed.

Lemma is_space3_lower_char (c d e : ascii) :
  JsString.is_space3 (JsString.lower_char c) (JsString.lower_char d)
    (JsString.lower_char e)
  = JsString.is_space3 c d e.
Proof.
  destruct (lower_char_high c) as [->|[Hc Hc']];
    [|rewrite !is_space3_low; auto].
  destruct (lower_char_high d) as [->|[Hd Hd']];
    [|rewrite !is_space3_low; auto].
  destruct (lower_char_high e) as [->|[He He']];
    [reflexivity | rewrite !is_space3_low; auto].
Qed.

(** Induction along the steps of [trimStart]: a white-space character of
    one, two or three bytes is dropped, or the string is returned. *)
Lemma trimStart_cases (P : string -> Prop) :
  (forall c r, JsString.is_space c = true -> P r -> P (String c r)) ->
  (forall c d r, JsString.is_space c = false ->
     JsString.is_space2 c d = true -> P r -> P (String c (String d r))) ->
  (forall c d e r, JsString.is_space c = false ->
     JsString.is_space2 c d = false -> JsString.is_space3 c d e = true ->
     P r -> P (String c (String d (String e r)))) ->
  (forall s, JsString.trimStart s = s -> P s) ->
  forall s, P s.
Proof.
  intros H1 H2 H3 Hstop s.
  assert (Hall : forall n s, (String.length s <= n)%nat -> P s).
  { clear s. induction n as [|n IH]; intros s Hlen.
    - destruct s; [now apply Hstop | simpl in Hlen; lia].
    - destruct s as [|c r]; [now apply Hstop|].
      destruct (JsString.is_space c) eqn:Ec.
      { apply H1; [exact Ec|]. apply IH. simpl in Hlen. lia. }
      destruct r as [|d r]; [apply Hstop; simpl; now rewrite Ec|].
      destruct (JsString.is_space2 c d) eqn:Ed.
      { apply H2; auto. apply IH. simpl in Hlen. lia. }
      destruct r as [|e r]; [apply Hstop; simpl; now rewrite Ec, Ed|].
      destruct (JsString.is_space3 c d e) eqn:Ee.
      { apply H3; auto. apply IH. simpl in Hlen. lia. }
      apply Hstop. simpl. now rewrite Ec, Ed, Ee. }
  now apply (Hall (String.length s)).
Qed.

Lemma trimStart_space_eq (c : ascii) (r : string) :
  JsString.trimStart (String c r)
  = if JsString.is_space c then JsString.trimStart r
    else match r with
         | EmptyString => String c r
         | String d r1 =>
             if JsString.is_space2 c d then JsString.trimStart r1
             else match r1 with
                  | EmptyString => String c r
                  | String e r2 =>
                      if JsString.is_space3 c d e then JsString.trimStart r2
                      else String c r
                  end
         end.
Proof. reflexivity. Qed.

Lemma trimStart_space (c : ascii) (r : string) :
  JsString.is_space c = true ->
  JsString.trimStart (String c r) = JsString.trimStart r.
Proof. intros Ec. simpl. now rewrite Ec. Qed.

Lemma trimStart_space2 (c d : ascii) (r : string) :
  JsString.is_space c = false -> JsString.is_space2 c d = true ->
  JsString.trimStart (String c (String d r)) = JsString.trimStart r.
Proof. intros Ec Ed. simpl. now rewrite Ec, Ed. Qed.

Lemma trimStart_space3 (c d e : ascii) (r : string) :
  JsString.is_space c = false -> JsString.is_space2 c d = false ->
  JsString.is_space3 c d e = true ->
  JsString.trimStart (String c (String d (String e r)))
  = JsString.trimStart r.
Proof. intros Ec Ed Ee. simpl. now rewrite Ec, Ed, Ee. Qed.

Lemma trimStart_length (s : string) :
  (String.length (JsString.trimStart s) <= String.length s)%nat.
Proof.
  induction s as [c r Ec IH|c d r Ec Ed IH|c d e r Ec Ed Ee IH|s Hs]
    using trimStart_cases.
  - rewrite trimStart_space by assumption. simpl. lia.
  - rewrite trimStart_space2 by assumption. simpl. lia.
  - rewrite trimStart_space3 by assumption. simpl. lia.
  - rewrite Hs. lia.
Qed.

(** What [trimStart] returns starts with no white space. *)
Lemma trimStart_idem (s : string) :
  JsString.trimStart (JsString.trimStart s) = JsString.trimStart s.
Proof.
  induction s as [c r Ec IH|c d r Ec Ed IH|c d e r Ec Ed Ee IH|s Hs]
    using trimStart_cases.
  - now rewrite trimStart_space.
  - now rewrite trimStart_space2.
  - now rewrite trimStart_space3.
  - now rewrite Hs.
Qed.

(** White space in front of [w] goes with the white space [w] starts
    with. *)
Lemma trimStart_app (p w : string) :
  JsString.trimStart p = EmptyString ->
  JsString.trimStart (p ++ w)%string = JsString.trimStart w.
Proof.
  induction p as [c r Ec IH|c d r Ec Ed IH|c d e r Ec Ed Ee IH|s Hs]
    using trimStart_cases.
  - rewrite trimStart_space by assumption. intros Hr.
    cbn [append]. rewrite trimStart_space by assumption. now apply IH.
  - rewrite trimStart_space2 by assumption. intros Hr.
    cbn [append]. rewrite trimStart_space2 by assumption. now apply IH.
  - rewrite trimStart_space3 by assumption. intros Hr.
    cbn [append]. rewrite trimStart_space3 by assumption. now apply IH.
  - rewrite Hs. now intros ->.
Qed.

Lemma trimStart_shorter (r s : string) :
  (String.length r < String.length s)%nat -> JsString.trimStart r <> s.
Proof.
  intros Hlen Heq. pose proof (trimStart_length r) as Hle.
  rewrite Heq in Hle. lia.
Qed.

Lemma trimStart_fixed (s : string) :
  JsString.trimStart s = s <-> starts_clean s = true.
Proof.
  assert (Hcut : forall r : string,
            (String.length r < String.length s)%nat ->
            JsString.trimStart r = s <-> false = true).
  { intros r Hlen. split; [|discriminate].
    intros Heq. exfalso. revert Heq. now apply trimStart_shorter. }
  destruct s as [|c [|d [|e r]]]; [simpl; tauto|..]; cbn [starts_clean].
  - rewrite trimStart_space_eq.
    destruct (JsString.is_space c); simpl; split; congruence.
  - rewrite trimStart_space_eq.
    destruct (JsString.is_space c); [apply Hcut; simpl; lia|].
    destruct (JsString.is_space2 c d); [apply Hcut; simpl; lia|].
    simpl; tauto.
  - rewrite trimStart_space_eq.
    destruct (JsString.is_space c); [apply Hcut; simpl; lia|].
    destruct (JsString.is_space2 c d); [apply Hcut; simpl; lia|].
    destruct (JsString.is_space3 c d e); [apply Hcut; simpl; lia|].
    simpl; tauto.
Qed.

(** A string that starts with no white space still does when cut. *)
Lemma trimStart_prefix (x w : string) :
  JsString.trimStart (x ++ w)%string = (x ++ w)%string ->
  JsString.trimStart x = x.
Proof.
  rewrite !trimStart_fixed.
  destruct x as [|c [|d [|e r]]]; try reflexivity; cbn [append starts_clean];
    intros Hc; repeat (apply andb_true_iff in Hc as [? Hc]);
    repeat (apply andb_true_iff; split); auto.
Qed.

(** [trimStart] cuts white space off the front, [trimEnd] off the back. *)
Lemma trimStart_split (s : string) :
  exists p,
    s = (p ++ JsString.trimStart s)%string
    /\ JsString.trimStart p = EmptyString.
Proof.
  induction s as [c r Ec [p [Hp Hb]]|c d r Ec Ed [p [Hp Hb]]
                 |c d e r Ec Ed Ee [p [Hp Hb]]|s Hs]
    using trimStart_cases.
  - exists (String c p). rewrite !trimStart_space by assumption.
    split; [cbn [append]; now rewrite <- Hp | exact Hb].
  - exists (String c (String d p)). rewrite !trimStart_space2 by assumption.
    split; [cbn [append]; now rewrite <- Hp | exact Hb].
  - exists (String c (String d (String e p))).
    rewrite !trimStart_space3 by assumption.
    split; [cbn [append]; now rewrite <- Hp | exact Hb].
  - exists EmptyString. now rewrite Hs.
Qed.

Lemma trimEnd_split (s : string) :
  exists w,
    s = (JsString.trimEnd s ++ w)%string
    /\ JsString.trimStart w = EmptyString.
Proof.
  induction s as [|c r [w [Hw Hb]]]; [now exists EmptyString|].
  cbn [JsString.trimEnd].
  destruct (JsString.trimStart (String c r)) eqn:Hs.
  - now exists (String c r).
  - exists w. split; [cbn [append]; now rewrite <- Hw | exact Hb].
Qed.

Lemma trimEnd_blank (s : string) :
  JsString.trimStart (JsString.trimEnd s) = EmptyString ->
  JsString.trimStart s = EmptyString.
Proof.
  intros Hb. destruct (trimEnd_split s) as [w [Hw Hblank]].
  rewrite Hw at 1. now rewrite trimStart_app.
Qed.

Lemma trimEnd_idem (s : string) :
  JsString.trimEnd (JsString.trimEnd s) = JsString.trimEnd s.
Proof.
  induction s as [|c r IH]; [reflexivity|].
  cbn [JsString.trimEnd].
  destruct (JsString.trimStart (String c r)) eqn:Hs; [reflexivity|].
  cbn [JsString.trimEnd]. rewrite IH.
  destruct (JsString.trimStart (String c (JsString.trimEnd r))) eqn:Hcut;
    [|reflexivity].
  exfalso.
  assert (Hb : JsString.trimStart (JsString.trimEnd (String c r))
               = EmptyString).
  { cbn [JsString.trimEnd]. now rewrite Hs. }
  apply trimEnd_blank in Hb. congruence.
Qed.

Lemma trimStart_trimEnd (s : string) :
  JsString.trimStart s = s ->
  JsString.trimStart (JsString.trimEnd s) = JsString.trimEnd s.
Proof.
  intros Hs. destruct (trimEnd_split s) as [w [Hw _]].
  apply (trimStart_prefix _ w). now rewrite <- Hw.
Qed.

Lemma trim_idem (s : string) :
  JsString.trim (JsString.trim s) = JsString.trim s.
Proof.
  unfold JsString.trim.
  rewrite (trimStart_trimEnd _ (trimStart_idem s)).
  apply trimEnd_idem.
Qed.

Lemma toLowerCase_empty (s : string) :
  JsString.toLowerCase s = EmptyString -> s = EmptyString.
Proof. destruct s; simpl; [reflexivity | discriminate]. Qed.

Lemma starts_clean_toLowerCase (s : string) :
  starts_clean (JsString.toLowerCase s) = starts_clean s.
Proof.
  destruct s as [|c [|d [|e r]]]; try reflexivity;
    cbn [JsString.toLowerCase starts_clean];
    now rewrite ?is_space_lower_char, ?is_space2_lower_char,
      ?is_space3_lower_char.
Qed.

Lemma trimStart_toLowerCase (s : string) :
  JsString.trimStart (JsString.toLowerCase s)
  = JsString.toLowerCase (JsString.trimStart s).
Proof.
  induction s as [c r Ec IH|c d r Ec Ed IH|c d e r Ec Ed Ee IH|s Hs]
    using trimStart_cases.
  - cbn [JsString.toLowerCase].
    rewrite !trimStart_space; rewrite ?is_space_lower_char; assumption.
  - cbn [JsString.toLowerCase].
    rewrite !trimStart_space2;
      rewrite ?is_space_lower_char, ?is_space2_lower_char; assumption.
  - cbn [JsString.toLowerCase].
    rewrite !trimStart_space3;
      rewrite ?is_space_lower_char, ?is_space2_lower_char,
        ?is_space3_lower_char; assumption.
  - rewrite Hs. apply trimStart_fixed. rewrite starts_clean_toLowerCase.
    now apply trimStart_fixed.
Qed.

Lemma trimEnd_toLowerCase (s : string) :
  JsString.trimEnd (JsString.toLowerCase s)
  = JsString.toLowerCase (JsString.trimEnd s).
Proof.
  induction s as [|c r IH]; [reflexivity|].
  cbn [JsString.toLowerCase JsString.trimEnd].
  change (String (JsString.lower_char c) (JsString.toLowerCase r))
    with (JsString.toLowerCase (String c r)).
  rewrite trimStart_toLowerCase.
  destruct (JsString.trimStart (String c r)); [reflexivity|].
  cbn [JsString.toLowerCase]. now rewrite IH.
Qed.

Lemma trim_toLowerCase (s : string) :
  JsString.trim (JsString.toLowerCase s)
  = JsString.toLowerCase (JsString.trim s).
Proof.
  unfold JsString.trim.
  now rewrite trimStart_toLowerCase, trimEnd_toLowerCase.
Qed.

Lemma lower_char_idem (c : ascii) :
  JsString.lower_char (JsString.lower_char c) = JsString.lower_char c.
Proof. destruct c as [[] [] [] [] [] [] [] []]; reflexivity. Qed.

Lemma toLowerCase_idem (s : string) :
  JsString.toLowerCase (JsString.toLowerCase s) = JsString.toLowerCase s.
Proof.
  induction s as [|c r IH]; simpl; [reflexivity|].
  now rewrite lower_char_idem, IH.
Qed.

(** [toLowerCase().trim()] is a normal form. *)
Lemma normalize_idem (s : string) :
  JsString.trim (JsString.toLowerCase (JsString.trim (JsString.toLowerCase s)))
  = JsString.trim (JsString.toLowerCase s).
Proof.
  rewrite <- (trim_toLowerCase (JsString.toLowerCase s)).
  now rewrite trim_idem, toLowerCase_idem.
Qed.

Lemma nul_lower_char (c : ascii) :
  (nat_of_ascii (JsString.lower_char c) =? 0)%nat = (nat_of_ascii c =? 0)%nat.
Proof. destruct c as [[] [] [] [] [] [] [] []]; reflexivity. Qed.

Lemma has_nul_toLowerCase (s : string) :
  JsString.has_nul (JsString.toLowerCase s) = JsString.has_nul s.
Proof.
  induction s as [|c r IH]; simpl; [reflexivity|].
  now rewrite nul_lower_char, IH.
Qed.

Lemma has_nul_app (p w : string) :
  JsString.has_nul (p ++ w)%string = JsString.has_nul p || JsString.has_nul w.
Proof.
  induction p as [|c r IH]; simpl; [reflexivity|].
  now rewrite IH, orb_assoc.
Qed.

Lemma has_nul_trimStart (s : string) :
  JsString.has_nul s = false -> JsString.has_nul (JsString.trimStart s) = false.
Proof.
  destruct (trimStart_split s) as [p [Hp _]]. rewrite Hp at 1.
  rewrite has_nul_app. intros Hs. now apply orb_false_iff in Hs.
Qed.

Lemma has_nul_trimEnd (s : string) :
  JsString.has_nul s = false -> JsString.has_nul (JsString.trimEnd s) = false.
Proof.
  destruct (trimEnd_split s) as [w [Hw _]]. rewrite Hw at 1.
  rewrite has_nul_app. intros Hs. now apply orb_false_iff in Hs.
Qed.

(** A plain email has no NUL after [toLowerCase().trim()]. *)
Lemma plain_normalized (email : string) :
  JsString.plain email = true ->
  JsString.has_nul (JsString.trim (JsString.toLowerCase email)) = false.
Proof.
  unfold JsString.plain. intros Hp. apply andb_true_iff in Hp as [_ Hn].
  apply negb_true_iff in Hn.
  apply has_nul_trimEnd, has_nul_trimStart.
  now rewrite has_nul_toLowerCase.
Qed.

Lemma plain_no_nul (s : string) :
  JsString.plain s = true -> JsString.has_nul s = false.
Proof.
  unfold JsString.plain. intros Hp. apply andb_true_iff in Hp as [_ Hn].
  now apply negb_true_iff.
Qed.

(** ** Lists and ordering *)

Lemma NoDup_map_filter {Row Key : Type} (key : Row -> Key)
    (keep : Row -> bool) (rows : list Row) :
  NoDup (map key rows) -> NoDup (map key (filter keep rows)).
Proof.
  intros Hkeys. induction rows as [|r rows IH]; simpl; [constructor|].
  apply NoDup_cons_iff in Hkeys as [Hfresh Hrest].
  destruct (keep r); simpl; [|now apply IH].
  apply NoDup_cons; [|now apply IH].
  intros Hin. apply Hfresh.
  apply in_map_iff in Hin as (r' & Hkey & Hin).
  apply filter_In in Hin as [Hin _].
  apply in_map_iff. now exists r'.
Qed.

Lemma order_newest_last (x : Todo) (l : list Todo) :
  (forall y, In y l -> (todo_created_at y < todo_created_at x)%Z) ->
  order_by_created_at_desc (l ++ [x]) = x :: order_by_created_at_desc l.
Proof.
  induction l as [|y l IH]; simpl; intros Hnew; [reflexivity|].
  rewrite IH by (intros z Hz; apply Hnew; now right).
  simpl.
  assert (Hy : (todo_created_at y < todo_created_at x)%Z)
    by (apply Hnew; now left).
  destruct (Z.leb_spec (todo_created_at x) (todo_created_at y)); [lia|].
  reflexivity.
Qed.

Lemma insert_desc_In (x y : Todo) (l : list Todo) :
  In y (insert_desc x l) <-> y = x \/ In y l.
Proof.
  induction l as [|z l IH]; simpl.
  - intuition congruence.
  - destruct (todo_created_at z <=? todo_created_at x)%Z; simpl.
    + intuition congruence.
    + rewrite IH. intuition congruence.
Qed.

Lemma order_by_created_at_desc_In (y : Todo) (l : list Todo) :
  In y (order_by_created_at_desc l) <-> In y l.
Proof.
  induction l as [|x l IH]; simpl; [tauto|].
  rewrite insert_desc_In, IH. intuition congruence.
Qed.

(** ** Handlers and the store *)

Lemma preserves_ret {A : Type} (P : Store -> Prop) (a : A) :
  preserves P (ret a).
Proof. intros s Hs. exact Hs. Qed.

Lemma preserves_lift {A : Type} (P : Store -> Prop) (r : JsError + A) :
  preserves P (lift r).
Proof. intros s Hs. exact Hs. Qed.

Lemma preserves_bind {A B : Type} (P : Store -> Prop) (m : M A)
    (k : A -> M B) :
  preserves P m -> (forall a, preserves P (k a)) -> preserves P (bind m k).
Proof.
  intros Hm Hk s Hs. unfold bind.
  specialize (Hm s Hs).
  destruct (m s) as [[e|a] s']; simpl in *; [exact Hm|].
  now apply Hk.
Qed.

Lemma preserves_bind_lift {A B : Type} (P : Store -> Prop)
    (r : JsError + A) (k : A -> M B) :
  (forall a, r = inr a -> preserves P (k a)) -> preserves P (bind (lift r) k).
Proof.
  intros Hk s Hs. unfold bind, lift.
  destruct r as [e|a]; simpl; [exact Hs|].
  now apply (Hk a).
Qed.

Lemma preserves_pool_query {A : Type} (P : Store -> Prop) (env : Env)
    (q : Sql) (run : Store -> (JsError + A) * Store) :
  (forall s, P s -> P (log_query q s)) ->
  (forall s, P s -> P (snd (run s))) ->
  preserves P (pool_query env q run).
Proof.
  intros Hlog Hrun s Hs. unfold pool_query.
  destruct (fault env); simpl; auto.
Qed.

Lemma sql_select_user_by_email_preserves (P : Store -> Prop) (env : Env)
    (email : string) :
  (forall q s, P s -> P (log_query q s)) ->
  preserves P (sql_select_user_by_email env email).
Proof.
  intros Hlog. apply preserves_pool_query; [apply Hlog|].
  intros s Hs. now destruct (JsString.has_nul email).
Qed.

Lemma try_catch_store (body : M Response) (on_error : JsError -> Response)
    (s : Store) :
  snd (try_catch body on_error s) = snd (body s).
Proof. unfold try_catch. now destruct (body s) as [[e|r] s']. Qed.

Lemma preserves_try_catch (P : Store -> Prop) (body : M Response)
    (on_error : JsError -> Response) :
  preserves P body -> forall s, P s -> P (snd (try_catch body on_error s)).
Proof. intros Hb s Hs. rewrite try_catch_store. now apply Hb. Qed.

Lemma NoDup_snoc {A : Type} (l : list A) (x : A) :
  NoDup l -> ~ In x l -> NoDup (l ++ [x]).
Proof.
  intros Hl Hx. apply NoDup_app; [exact Hl | repeat constructor; intros [] |].
  intros a Ha [<-|[]]. now apply Hx.
Qed.

Lemma store_ok_log (q : Sql) (s : Store) :
  store_ok s -> store_ok (log_query q s).
Proof. intros [? ? ? ? ? ?]. now constructor. Qed.

Lemma sql_insert_user_ok (env : Env) (email password_hash : string) :
  JsString.trim (JsString.toLowerCase email) = email ->
  preserves store_ok (sql_insert_user env email password_hash).
Proof.
  intros Hnorm. apply preserves_pool_query; [intros; now apply store_ok_log|].
  intros s [Ht Hta Hu Hua He Hen].
  destruct (JsString.has_nul email); [now constructor|].
  destruct (existsb _ (users s)) eqn:Ex; simpl.
  - constructor; simpl; auto.
    intros u Hin. specialize (Hua u Hin). lia.
  - assert (Hfresh : ~ In email (map user_email (users s))).
    { intros Hin. apply in_map_iff in Hin as (u & Hu' & Hin).
      assert (existsb (fun u0 => String.eqb (user_email u0) email) (users s)
              = true) as Hex.
      { apply existsb_exists. exists u. split; [exact Hin|].
        now apply String.eqb_eq. }
      congruence. }
    constructor; simpl; auto.
    + rewrite map_app. simpl. apply NoDup_snoc; [exact Hu|].
      intros Hin. apply in_map_iff in Hin as (u & Hid & Hin).
      specialize (Hua u Hin). lia.
    + intros u Hin. apply in_app_iff in Hin as [Hin|[<-|[]]]; simpl.
      * specialize (Hua u Hin). lia.
      * lia.
    + rewrite map_app. simpl. now apply NoDup_snoc.
    + intros u Hin. apply in_app_iff in Hin as [Hin|[<-|[]]]; simpl; auto.
Qed.

Lemma sql_insert_todo_ok (env : Env) (text : string) (completed : bool)
    (user : Z) :
  preserves store_ok (sql_insert_todo env text completed user).
Proof.
  apply preserves_pool_query; [intros; now apply store_ok_log|].
  intros s [Ht Hta Hu Hua He Hen].
  destruct (JsString.has_nul text); [now constructor|].
  destruct (existsb _ (users s)); simpl.
  - constructor; simpl; auto.
    + rewrite map_app. simpl. apply NoDup_snoc; [exact Ht|].
      intros Hin. apply in_map_iff in Hin as (t & Hid & Hin).
      specialize (Hta t Hin). lia.
    + intros t Hin. apply in_app_iff in Hin as [Hin|[<-|[]]]; simpl.
      * specialize (Hta t Hin). lia.
      * lia.
  - constructor; simpl; auto.
    intros t Hin. specialize (Hta t Hin). lia.
Qed.

Lemma select_ok {A : Type} (env : Env) (q : Sql) (rows : Store -> A) :
  preserves store_ok (pool_query env q (fun s => (inr (rows s), s))).
Proof.
  apply preserves_pool_query; [intros; now apply store_ok_log|].
  intros s Hs. exact Hs.
Qed.

Section Facts.

Context `{Collaborators}.

Lemma sql_update_todo_ok (env : Env) (completed : bool) (id : string)
    (user : Z) :
  preserves store_ok (sql_update_todo env completed id user).
Proof.
  apply preserves_pool_query; [intros; now apply store_ok_log|].
  intros s [Ht Hta Hu Hua He Hen].
  destruct (pg_int8in id) as [n|]; simpl; [|now constructor].
  constructor; simpl; auto.
  - rewrite map_map.
    erewrite map_ext; [exact Ht|].
    intros t. now destruct (owned_row n user t).
  - intros t Hin. apply in_map_iff in Hin as (t0 & <- & Hin).
    specialize (Hta t0 Hin). now destruct (owned_row n user t0).
Qed.

Lemma sql_delete_todo_ok (env : Env) (id : string) (user : Z) :
  preserves store_ok (sql_delete_todo env id user).
Proof.
  apply preserves_pool_query; [intros; now apply store_ok_log|].
  intros s [Ht Hta Hu Hua He Hen].
  destruct (pg_int8in id) as [n|]; simpl; [|now constructor].
  constructor; simpl; auto.
  - now apply NoDup_map_filter.
  - intros t Hin. apply filter_In in Hin as [Hin _]. now apply Hta.
Qed.

(** Steps through a handler body, one statement at a time. *)
Ltac preserve_step :=
  first
    [ apply preserves_ret
    | apply preserves_lift
    | apply sql_insert_todo_ok
    | apply sql_update_todo_ok
    | apply sql_delete_todo_ok
    | apply select_ok
    | apply sql_select_user_by_email_preserves; intros; now apply store_ok_log
    | apply preserves_bind; [|intros ?]
    | match goal with
      | |- preserves _ (if ?b then _ else _) => destruct b
      | |- preserves _ (match ?x with _ => _ end) => destruct x
      end ].

Lemma register_ok (env : Env) (req : Request) (s : Store) :
  store_ok s -> store_ok (snd (register env req s)).
Proof.
  apply preserves_try_catch. unfold toLowerCase_trim.
  repeat first
    [ apply preserves_bind_lift; intros ? ?
    | preserve_step ].
  apply sql_insert_user_ok.
  match goal with
  | Heq : match ?v with JStr _ => _ | _ => _ end = inr _ |- _ =>
      destruct v; try discriminate; injection Heq as <-
  end.
  apply normalize_idem.
Qed.

Lemma app_ok (route : Route) (env : Env) (req : Request) (s : Store) :
  store_ok s -> store_ok (snd (app route env req s)).
Proof.
  destruct route; simpl; try apply register_ok;
    unfold protected; try destruct (authenticateToken env req); simpl; auto;
    apply preserves_try_catch; repeat preserve_step.
Qed.

(** The schema's constraints hold in every store the server reaches. *)
Lemma reachable_ok (s : Store) : reachable s -> store_ok s.
Proof.
  induction 1 as [|s route env req _ IH].
  - constructor; simpl; try constructor; intros ? [].
  - now apply app_ok.
Qed.

Lemma reachable_todo_ids_unique (s : Store) :
  reachable s -> NoDup (map todo_id (todos s)).
Proof. intros Hs. exact (todo_ids_unique s (reachable_ok s Hs)). Qed.

(** ** The access gate *)

Lemma app_protected (route : Route) (env : Env) (req : Request)
    (handler : Claims -> Store -> Response * Store) (s : Store) :
  route_handler route env req = Some handler ->
  app route env req s = protected env req handler s.
Proof.
  destruct route; simpl; intros Hr; try discriminate;
    injection Hr as <-; reflexivity.
Qed.

Lemma protected_next (env : Env) (req : Request) (user : Claims)
    (handler : Claims -> Store -> Response * Store) (s : Store) :
  authenticateToken env req = Next user ->
  protected env req handler s = handler user s.
Proof. unfold protected. now intros ->. Qed.

Lemma protected_rejected (env : Env) (req : Request) (r : Response)
    (handler : Claims -> Store -> Response * Store) (s : Store) :
  authenticateToken env req = Rejected r ->
  protected env req handler s = (r, s).
Proof. unfold protected. now intros ->. Qed.

(** The middleware on a token that is present: the verdict is the
    verifier's. *)
Lemma authenticateToken_present (env : Env) (req : Request)
    (token : string) :
  header_token (authorization req) = Some token -> token <> EmptyString ->
  authenticateToken env req =
  match jwt_verify (server_time env) token with
  | inr decoded => Next decoded
  | inl err =>
      if String.eqb (err_name err) "TokenExpiredError" then
        Rejected (mkResponse 401
          (ErrorBody "로그인이 만료되었습니다. 다시 로그인해주세요."))
      else Rejected (mkResponse 403 (ErrorBody "유효하지 않은 토큰입니다."))
  end.
Proof.
  intros Htok Hne. unfold authenticateToken. rewrite Htok.
  destruct token; [congruence | reflexivity].
Qed.

(** C2: on every token-protected route, a request without a token is answered
    401 and the handler does not run (the store, with its query log, is
    untouched); a token with a valid signature whose expiry has passed is
    answered 401 with a re-login message different from the missing-token
    one; a token that is structurally invalid or whose signature does not
    match is answered 403; a valid unexpired token puts its payload in
    [req.user] and the route's handler runs with it. *)
Theorem access_gate_state_machine (route : Route) (env : Env) (req : Request)
    (handler : Claims -> Store -> Response * Store) (s : Store) :
  route_handler route env req = Some handler ->
  ((authorization req = None
    \/ header_token (authorization req) = None
    \/ header_token (authorization req) = Some EmptyString) ->
   app route env req s
   = (mkResponse 401 (ErrorBody "로그인이 필요합니다."), s))
  /\ (forall token payload exp,
        header_token (authorization req) = Some token ->
        token <> EmptyString ->
        jwt_decode token = Some (payload, exp) ->
        jwt_signature_ok token = true ->
        (exp <= server_time env)%Z ->
        app route env req s
        = (mkResponse 401
             (ErrorBody "로그인이 만료되었습니다. 다시 로그인해주세요."), s))
  /\ (forall token,
        header_token (authorization req) = Some token ->
        token <> EmptyString ->
        (jwt_decode token = None \/ jwt_signature_ok token = false) ->
        app route env req s
        = (mkResponse 403 (ErrorBody "유효하지 않은 토큰입니다."), s))
  /\ (forall token payload exp,
        header_token (authorization req) = Some token ->
        token <> EmptyString ->
        jwt_decode token = Some (payload, exp) ->
        jwt_signature_ok token = true ->
        (server_time env < exp)%Z ->
        authenticateToken env req = Next payload
        /\ app route env req s = handler payload s)
  /\ "로그인이 만료되었습니다. 다시 로그인해주세요." <> "로그인이 필요합니다.".
Proof.
  intros Hroute. rewrite (app_protected _ _ _ _ s Hroute).
  split; [|split; [|split; [|split]]].
  - intros Hmissing. apply protected_rejected. unfold authenticateToken.
    destruct Hmissing as [Hnone|[Hnone|Hempty]].
    + now rewrite Hnone.
    + now rewrite Hnone.
    + now rewrite Hempty.
  - intros token payload exp Htok Hne Hdec Hsig Hexp.
    apply protected_rejected.
    rewrite (authenticateToken_present _ _ _ Htok Hne).
    unfold jwt_verify. rewrite Hdec, Hsig. simpl.
    destruct (Z.leb_spec exp (server_time env)); [reflexivity | lia].
  - intros token Htok Hne Hbad. apply protected_rejected.
    rewrite (authenticateToken_present _ _ _ Htok Hne).
    unfold jwt_verify. destruct Hbad as [Hdec|Hsig].
    + now rewrite Hdec.
    + destruct (jwt_decode token) as [[payload exp]|]; [|reflexivity].
      now rewrite Hsig.
  - intros token payload exp Htok Hne Hdec Hsig Hexp.
    assert (Hnext : authenticateToken env req = Next payload).
    { rewrite (authenticateToken_present _ _ _ Htok Hne).
      unfold jwt_verify. rewrite Hdec, Hsig. simpl.
      destruct (Z.leb_spec exp (server_time env)); [lia | reflexivity]. }
    split; [exact Hnext | now apply protected_next].
  - discriminate.
Qed.

Lemma scheme_header_not_empty (scheme token : string) :
  String.eqb (scheme ++ String " " token)%string "" = false.
Proof. now destruct scheme. Qed.

Lemma header_token_scheme (scheme token : string) :
  no_space scheme = true -> no_space token = true ->
  header_token (Some (scheme ++ String " " token)%string) = Some token.
Proof.
  intros Hs Ht. unfold header_token.
  rewrite scheme_header_not_empty, (split_space_scheme _ _ Hs),
    (split_space_no_space _ Ht).
  reflexivity.
Qed.

Lemma header_token_bare (header : string) :
  no_space header = true ->
  header_token (Some header) = None
  \/ header_token (Some header) = Some EmptyString.
Proof.
  intros Hh. unfold header_token.
  destruct (String.eqb header ""); [now right | left].
  now rewrite (split_space_no_space _ Hh).
Qed.

(** C9: the middleware takes the second space-separated piece of the
    Authorization header as the token and never looks at the first: a header
    made of any scheme word, one space and a token is treated exactly as
    [Bearer] followed by that token, so a token the verifier accepts
    authenticates under any scheme; a header that is a bare token, with no
    space in it, is answered 401 exactly as a request without the header. *)
Theorem token_extraction_ignores_scheme (env : Env) (id : string)
    (payload : JsVal) (scheme token : string) :
  no_space scheme = true -> no_space token = true ->
  header_token (Some (scheme ++ String " " token)%string) = Some token
  /\ authenticateToken env
       (mkRequest (Some (scheme ++ String " " token)%string) id payload)
     = authenticateToken env
         (mkRequest (Some ("Bearer" ++ String " " token)%string) id payload)
  /\ (forall decoded,
        token <> EmptyString ->
        jwt_verify (server_time env) token = inr decoded ->
        authenticateToken env
          (mkRequest (Some (scheme ++ String " " token)%string) id payload)
        = Next decoded)
  /\ authenticateToken env (mkRequest (Some token) id payload)
     = authenticateToken env (mkRequest None id payload)
  /\ authenticateToken env (mkRequest (Some token) id payload)
     = Rejected (mkResponse 401 (ErrorBody "로그인이 필요합니다.")).
Proof.
  intros Hs Ht.
  pose proof (header_token_scheme scheme token Hs Ht) as Hscheme.
  pose proof (header_token_scheme "Bearer" token eq_refl Ht) as Hbearer.
  assert (Hbare : authenticateToken env (mkRequest (Some token) id payload)
                  = Rejected (mkResponse 401 (ErrorBody "로그인이 필요합니다."))).
  { unfold authenticateToken. cbn [authorization].
    destruct (header_token_bare token Ht) as [-> | ->]; reflexivity. }
  split; [exact Hscheme|]. split; [|split; [|split]].
  - unfold authenticateToken. cbn [authorization].
    now rewrite Hscheme, Hbearer.
  - intros decoded Hne Hver.
    rewrite (authenticateToken_present env _ token); [|exact Hscheme|exact Hne].
    now rewrite Hver.
  - now rewrite Hbare.
  - exact Hbare.
Qed.

(** ** Updating an item *)


(** ** Logging in *)

Lemma filter_nil {A : Type} (p : A -> bool) (l : list A) :
  (forall x, In x l -> p x = false) -> filter p l = [].
Proof.
  induction l as [|x l IH]; simpl; intros Hp; [reflexivity|].
  rewrite (Hp x) by now left. apply IH. intros y Hy. apply Hp. now right.
Qed.

Lemma filter_head_In {A : Type} (p : A -> bool) (l : list A) (x : A)
    (rest : list A) :
  filter p l = x :: rest -> In x l /\ p x = true.
Proof.
  intros Hf. apply filter_In. rewrite Hf. now left.
Qed.

Lemma truthy_string (s : string) :
  s <> EmptyString -> Js.truthy (JStr s) = true.
Proof.
  intros Hs. simpl. apply negb_true_iff. now apply String.eqb_neq.
Qed.

(** The login handler on a body with two non-empty strings, while the
    database answers. *)
Lemma login_well_formed (env : Env) (req : Request) (email password : string)
    (s : Store) :
  fault env = None ->
  Js.destructure (req_body req) "email" = inr (JStr email) ->
  Js.destructure (req_body req) "password" = inr (JStr password) ->
  email <> EmptyString -> password <> EmptyString ->
  fst (login env req s) =
  if JsString.has_nul (JsString.trim (JsString.toLowerCase email)) then
    mkResponse 500
      (ErrorDetails "서버 오류가 발생했습니다." (err_message invalid_text))
  else
    match filter (fun u => String.eqb (user_email u)
                    (JsString.trim (JsString.toLowerCase email))) (users s)
    with
    | [] => mkResponse 401 (ErrorBody "이메일 또는 비밀번호가 올바르지 않습니다.")
    | user :: _ =>
        if negb (bcrypt_compare password (user_password_hash user)) then
          mkResponse 401 (ErrorBody "이메일 또는 비밀번호가 올바르지 않습니다.")
        else
          json (DataSession (public_user user)
                  (jwt_sign (mkClaims (user_id user) (user_email user))
                     (server_time env) (server_time env + JWT_EXPIRES_IN)))
    end.
Proof.
  intros Hup Hemail Hpw Hne Hnp.
  unfold login, try_catch, bind, lift. rewrite Hemail, Hpw.
  rewrite (truthy_string _ Hne), (truthy_string _ Hnp). simpl.
  unfold sql_select_user_by_email, pool_query. rewrite Hup. simpl.
  destruct (JsString.has_nul _); [reflexivity|].
  destruct (filter _ (users s)) as [|user rest]; [reflexivity|].
  simpl. now destruct (bcrypt_compare password (user_password_hash user)).
Qed.

(** When email and password are both strings, the email plain, the two
    failures of a login cannot be told apart: no account under the
    (lower-cased, trimmed) email, or an account whose hash the password does
    not match, get the same 401 and the same message, byte for byte.  A
    password that is not a string is another matter: [bcrypt.compare] throws
    on it, and only when an account was found. *)
Lemma login_failures_indistinguishable
    (env1 env2 : Env) (req1 req2 : Request) (s1 s2 : Store)
    (email1 password1 email2 password2 : string) :
  fault env1 = None -> fault env2 = None ->
  JsString.plain email1 = true -> JsString.plain email2 = true ->
  Js.destructure (req_body req1) "email" = inr (JStr email1) ->
  Js.destructure (req_body req1) "password" = inr (JStr password1) ->
  email1 <> EmptyString -> password1 <> EmptyString ->
  Js.destructure (req_body req2) "email" = inr (JStr email2) ->
  Js.destructure (req_body req2) "password" = inr (JStr password2) ->
  email2 <> EmptyString -> password2 <> EmptyString ->
  (forall u, In u (users s1) ->
     user_email u <> JsString.trim (JsString.toLowerCase email1)) ->
  (exists u, In u (users s2)
     /\ user_email u = JsString.trim (JsString.toLowerCase email2)) ->
  (forall u, In u (users s2) ->
     user_email u = JsString.trim (JsString.toLowerCase email2) ->
     bcrypt_compare password2 (user_password_hash u) = false) ->
  fst (app PostAuthLogin env1 req1 s1)
  = mkResponse 401 (ErrorBody "이메일 또는 비밀번호가 올바르지 않습니다.")
  /\ fst (app PostAuthLogin env2 req2 s2)
     = fst (app PostAuthLogin env1 req1 s1).
Proof.
  intros Hup1 Hup2 Hplain1 Hplain2 He1 Hp1 Hne1 Hnp1 He2 Hp2 Hne2 Hnp2
    Hunknown [u [Hin Hmail]] Hwrong.
  simpl.
  rewrite (login_well_formed env1 req1 email1 password1 s1) by assumption.
  rewrite (login_well_formed env2 req2 email2 password2 s2) by assumption.
  rewrite (plain_normalized _ Hplain1), (plain_normalized _ Hplain2).
  rewrite filter_nil.
  2:{ intros x Hx. apply String.eqb_neq. now apply Hunknown. }
  split; [reflexivity|].
  destruct (filter _ (users s2)) as [|user rest] eqn:Hrows.
  - reflexivity.
  - apply filter_head_In in Hrows as [Huser Heq].
    apply String.eqb_eq in Heq.
    now rewrite (Hwrong user Huser Heq).
Qed.

(** ** Creating and listing items *)

(** The create handler on a text that is a string with something other than
    white space in it and no NUL, for a caller whose account row exists,
    while the database answers. *)
Lemma createTodo_valid (env : Env) (user : Claims) (req : Request)
    (text : string) (s : Store) :
  fault env = None ->
  Js.destructure (req_body req) "text" = inr (JStr text) ->
  JsString.trim text <> EmptyString ->
  JsString.has_nul text = false ->
  (exists u, In u (users s) /\ user_id u = userId user) ->
  let item :=
    mkTodo (todos_id_seq s) text false (userId user) (db_time env) in
  createTodo env user req s
  = (json (DataTodo item),
     mkStore (users s) (todos s ++ [item]) (users_id_seq s)
             (todos_id_seq s + 1)
             (query_log s ++ [InsertTodo text false (userId user)])).
Proof.
  intros Hup Htext Hblank Hnul [u [Hin Hid]] item.
  assert (Hne : text <> EmptyString) by (intros ->; now apply Hblank).
  unfold createTodo, try_catch, bind, lift. rewrite Htext.
  rewrite (truthy_string _ Hne). simpl.
  apply String.eqb_neq in Hblank. rewrite Hblank. simpl.
  unfold sql_insert_todo, pool_query. rewrite Hup. simpl. rewrite Hnul.
  assert (Hex : existsb (fun u0 => (user_id u0 =? userId user)%Z) (users s)
                = true).
  { apply existsb_exists. exists u. split; [exact Hin|]. now apply Z.eqb_eq. }
  rewrite Hex. reflexivity.
Qed.

Lemma getTodos_up (env : Env) (user : Claims) (s : Store) :
  fault env = None ->
  fst (getTodos env user s)
  = json (DataTodos
            (order_by_created_at_desc
               (filter (fun t => (todo_user_id t =? userId user)%Z) (todos s)))).
Proof.
  intros Hup. unfold getTodos, try_catch, bind, sql_select_todos, pool_query.
  now rewrite Hup.
Qed.

(** ** Items of another account *)

Lemma NoDup_map_inj {A B : Type} (f : A -> B) (l : list A) (x y : A) :
  NoDup (map f l) -> In x l -> In y l -> f x = f y -> x = y.
Proof.
  induction l as [|z l IH]; simpl; intros Hnd Hx Hy Hf; [contradiction|].
  inversion Hnd as [|? ? Hnotin Hrest]; subst.
  destruct Hx as [->|Hx], Hy as [->|Hy]; auto.
  - exfalso. apply Hnotin. rewrite Hf. now apply in_map.
  - exfalso. apply Hnotin. rewrite <- Hf. now apply in_map.
Qed.

Lemma filter_all {A : Type} (p : A -> bool) (l : list A) :
  (forall x, In x l -> p x = true) -> filter p l = l.
Proof.
  induction l as [|x l IH]; simpl; intros Hp; [reflexivity|].
  rewrite (Hp x) by now left. f_equal. apply IH. intros y Hy. apply Hp.
  now right.
Qed.





(** C10 (amended): when the id in the path is not text the database reads as
    a [BIGINT], an authenticated DELETE is answered 500, and so is an
    authenticated PATCH whose [completed] is a boolean: never 404.  While
    the database answers, the body carries the engine's error message next
    to the generic one.  The [todos] table is unchanged. *)
Theorem malformed_id_is_server_error (env : Env) (req : Request)
    (user : Claims) (s : Store) :
  authenticateToken env req = Next user ->
  pg_int8in (params_id req) = None ->
  status (fst (app DeleteTodoById env req s)) = 500%Z
  /\ todos (snd (app DeleteTodoById env req s)) = todos s
  /\ (fault env = None ->
      body (fst (app DeleteTodoById env req s))
      = ErrorDetails "서버 오류가 발생했습니다."
          (err_message (invalid_bigint (params_id req))))
  /\ (forall completed,
        Js.destructure (req_body req) "completed" = inr (JBool completed) ->
        status (fst (app PatchTodo env req s)) = 500%Z
        /\ todos (snd (app PatchTodo env req s)) = todos s
        /\ (fault env = None ->
            body (fst (app PatchTodo env req s))
            = ErrorDetails "서버 오류가 발생했습니다."
                (err_message (invalid_bigint (params_id req))))).
Proof.
  intros Hauth Hid. simpl. rewrite !(protected_next _ _ _ _ _ Hauth).
  unfold deleteTodo, updateTodo, try_catch, bind, lift,
    sql_delete_todo, sql_update_todo, pool_query.
  rewrite Hid.
  split; [|split; [|split]].
  - now destruct (fault env).
  - now destruct (fault env).
  - now intros ->.
  - intros completed ->. split; [|split].
    + now destruct (fault env).
    + now destruct (fault env).
    + now intros ->.
Qed.

(** ** Ownership, on every route *)

Lemma returns_ret {A : Type} (Q : A -> Prop) (a : A) :
  Q a -> returns Q (ret a).
Proof. intros Ha s. exact Ha. Qed.

Lemma returns_bind {A B : Type} (R : A -> Prop) (Q : B -> Prop) (m : M A)
    (k : A -> M B) :
  returns R m -> (forall a, R a -> returns Q (k a)) -> returns Q (bind m k).
Proof.
  intros Hm Hk s. unfold bind. specialize (Hm s).
  destruct (m s) as [[e|a] s']; simpl in *; [exact I|].
  exact (Hk a Hm s').
Qed.

Lemma returns_bind_any {A B : Type} (Q : B -> Prop) (m : M A)
    (k : A -> M B) :
  (forall a, returns Q (k a)) -> returns Q (bind m k).
Proof.
  intros Hk. apply (returns_bind (fun _ => True)); [|auto].
  intros s. now destruct (fst (m s)).
Qed.

Lemma returns_pool_query {A : Type} (Q : A -> Prop) (env : Env) (q : Sql)
    (run : Store -> (JsError + A) * Store) :
  (forall s, match fst (run s) with inr a => Q a | inl _ => True end) ->
  returns Q (pool_query env q run).
Proof.
  intros Hrun s. unfold pool_query.
  destruct (fault env); [exact I | apply Hrun].
Qed.

Lemma answers_try_catch (Q : Response -> Prop) (body : M Response)
    (on_error : JsError -> Response) (s : Store) :
  returns Q body -> (forall err, Q (on_error err)) ->
  Q (fst (try_catch body on_error s)).
Proof.
  intros Hbody Herr. unfold try_catch. specialize (Hbody s).
  destruct (body s) as [[e|r] s']; simpl in *; auto.
Qed.

(** The rows of a response all belong to [user]. *)
Lemma own_rows_sorted (user : Z) (l : list Todo) :
  Forall (fun t => todo_user_id t = user)
    (order_by_created_at_desc
       (filter (fun t => (todo_user_id t =? user)%Z) l)).
Proof.
  apply Forall_forall. intros t Ht.
  apply order_by_created_at_desc_In, filter_In in Ht as [_ Ht].
  now apply Z.eqb_eq.
Qed.

Lemma own_rows_updated (completed : bool) (n user : Z) (l : list Todo) :
  Forall (fun t => todo_user_id t = user)
    (map (set_completed completed) (filter (owned_row n user) l)).
Proof.
  apply Forall_forall. intros t Ht.
  apply in_map_iff in Ht as (t0 & <- & Ht0).
  apply filter_In in Ht0 as [_ Ht0]. unfold owned_row in Ht0.
  apply andb_true_iff in Ht0 as [_ Ht0]. now apply Z.eqb_eq.
Qed.

(** X22: every to-do row in the answer to an authenticated request belongs
    to the caller, on every protected route. *)
Lemma responses_carry_own_items (route : Route) (env : Env) (req : Request)
    (user : Claims) (s : Store) (t : Todo) :
  route_handler route env req <> None ->
  authenticateToken env req = Next user ->
  In t (response_todos (fst (app route env req s))) ->
  todo_user_id t = userId user.
Proof.
  intros Hroute Hauth.
  pose (Q := fun r : Response =>
    Forall (fun t => todo_user_id t = userId user) (response_todos r)).
  assert (HQ : Q (fst (app route env req s))).
  { destruct route; try (now elim Hroute); simpl;
      rewrite (protected_next _ _ _ _ _ Hauth);
      unfold me, getTodos, createTodo, updateTodo, deleteTodo;
      apply (answers_try_catch Q); unfold Q;
      try (intros err; repeat match goal with
                              | |- context [if ?b then _ else _] => destruct b
                              end; now constructor).
    - apply returns_bind_any. intros rows.
      destruct rows; apply returns_ret; constructor.
    - apply (returns_bind (Forall (fun t => todo_user_id t = userId user))).
      + apply returns_pool_query. intros s0. apply own_rows_sorted.
      + intros rows Hrows. now apply returns_ret.
    - apply returns_bind_any. intros text.
      destruct (negb (Js.truthy text)); [apply returns_ret; constructor|].
      apply returns_bind_any. intros blank.
      destruct blank; [apply returns_ret; constructor|].
      apply (returns_bind (Forall (fun t => todo_user_id t = userId user))).
      + apply returns_pool_query. intros s0.
        destruct (JsString.has_nul _); [exact I|].
        destruct (existsb _ (users s0)); simpl; [|exact I].
        now repeat constructor.
      + intros rows Hrows. destruct rows as [|data rows'].
        * apply returns_ret. constructor.
        * apply returns_ret. inversion Hrows; subst.
          now repeat constructor.
    - apply returns_bind_any. intros completed.
      destruct completed; try (apply returns_ret; constructor).
      apply (returns_bind (Forall (fun t => todo_user_id t = userId user))).
      + apply returns_pool_query. intros s0.
        destruct (pg_int8in (params_id req)); simpl; [|exact I].
        apply own_rows_updated.
      + intros rows Hrows. destruct rows as [|data rows'].
        * apply returns_ret. constructor.
        * apply returns_ret. inversion Hrows; subst.
          now repeat constructor.
    - apply returns_bind_any. intros rowCount.
      destruct (rowCount =? 0)%nat; apply returns_ret; constructor. }
  intros Hin. unfold Q in HQ. rewrite Forall_forall in HQ. now apply HQ.
Qed.

Lemma sql_update_todo_keeps (env : Env) (completed : bool) (id : string)
    (user : Z) (t : Todo) :
  todo_user_id t <> user ->
  preserves (fun s => In t (todos s)) (sql_update_todo env completed id user).
Proof.
  intros Hother. apply preserves_pool_query; [intros s Hs; exact Hs|].
  intros s Hs. destruct (pg_int8in id) as [n|]; simpl; [|exact Hs].
  apply in_map_iff. exists t. split; [|exact Hs].
  unfold owned_row. destruct (Z.eqb_spec (todo_user_id t) user); [easy|].
  now rewrite andb_false_r.
Qed.

Lemma sql_delete_todo_keeps (env : Env) (id : string) (user : Z) (t : Todo) :
  todo_user_id t <> user ->
  preserves (fun s => In t (todos s)) (sql_delete_todo env id user).
Proof.
  intros Hother. apply preserves_pool_query; [intros s Hs; exact Hs|].
  intros s Hs. destruct (pg_int8in id) as [n|]; simpl; [|exact Hs].
  apply filter_In. split; [exact Hs|].
  unfold owned_row. destruct (Z.eqb_spec (todo_user_id t) user); [easy|].
  now rewrite andb_false_r.
Qed.

Lemma sql_insert_todo_keeps (env : Env) (text : string) (completed : bool)
    (user : Z) (t : Todo) :
  preserves (fun s => In t (todos s))
    (sql_insert_todo env text completed user).
Proof.
  apply preserves_pool_query; [intros s Hs; exact Hs|].
  intros s Hs. destruct (JsString.has_nul text); [exact Hs|].
  destruct (existsb _ (users s)); simpl; [|exact Hs].
  apply in_app_iff. now left.
Qed.

Lemma sql_insert_user_keeps (env : Env) (email password_hash : string)
    (t : Todo) :
  preserves (fun s => In t (todos s))
    (sql_insert_user env email password_hash).
Proof.
  apply preserves_pool_query; [intros s Hs; exact Hs|].
  intros s Hs. destruct (JsString.has_nul email); [exact Hs|].
  now destruct (existsb _ (users s)).
Qed.

Lemma select_keeps {A : Type} (env : Env) (q : Sql) (rows : Store -> A)
    (t : Todo) :
  preserves (fun s => In t (todos s))
    (pool_query env q (fun s => (inr (rows s), s))).
Proof.
  apply preserves_pool_query; intros s Hs; exact Hs.
Qed.

(** X21: no request, on any route, changes or removes an item of an account
    other than the authenticated caller's. *)
Lemma foreign_items_kept (route : Route) (env : Env) (req : Request)
    (user : Claims) (s : Store) (t : Todo) :
  authenticateToken env req = Next user ->
  todo_user_id t <> userId user ->
  In t (todos s) -> In t (todos (snd (app route env req s))).
Proof.
  intros Hauth Hother.
  destruct route; simpl; try rewrite (protected_next _ _ _ _ _ Hauth);
    apply (preserves_try_catch (fun s' => In t (todos s')));
    repeat first
      [ apply preserves_bind_lift; intros ? ?
      | apply sql_insert_user_keeps
      | apply sql_insert_todo_keeps
      | apply sql_update_todo_keeps; assumption
      | apply sql_delete_todo_keeps; assumption
      | apply select_keeps
      | apply sql_select_user_by_email_preserves; intros ? ? Hs; exact Hs
      | apply preserves_ret
      | apply preserves_lift
      | apply preserves_bind; [|intros ?]
      | match goal with
        | |- preserves _ (if ?b then _ else _) => destruct b
        | |- preserves _ (match ?x with _ => _ end) => destruct x
        end ].
Qed.

(** ** Registering an existing identity *)


Lemma emailRegex_rejects_empty : emailRegex_test (JStr "") = false.
Proof. reflexivity. Qed.


End Facts.

(** * The handlers on the small instance *)

#[local] Existing Instance Demo.collaborators.

(** C3 (code bug): the create handler checks only that the text is not
    blank.  A text of 500 characters is stored, a blank text is answered 400
    with nothing stored, and a text of 501 characters is stored as well and
    answered 200, where the documented limit calls for 400. *)
Theorem create_accepts_501_characters :
  let post text :=
    app PostTodos Demo.env
      (Demo.request (Demo.bearer "tokA") "" [("text", JStr text)])
      Demo.store in
  let long := JsString.repeat_char "a"%char 501 in
  let limit := JsString.repeat_char "a"%char 500 in
  String.length long = 501%nat
  /\ fst (post long) = json (DataTodo (mkTodo 3 long false 1 5000))
  /\ todos (snd (post long))
     = todos Demo.store ++ [mkTodo 3 long false 1 5000]
  /\ status (fst (post long)) <> 400%Z
  /\ fst (post limit) = json (DataTodo (mkTodo 3 limit false 1 5000))
  /\ post "   " = (mkResponse 400 (ErrorBody "할 일 내용을 입력해주세요."),
                   Demo.store)
  /\ post "" = (mkResponse 400 (ErrorBody "할 일 내용을 입력해주세요."),
                Demo.store).
Proof.
  cbv zeta. repeat split; try (vm_compute; reflexivity).
  vm_compute. discriminate.
Qed.

(** C4 (code bug): the [catch] blocks answer 500 with a second field,
    [details], holding the raw [err.message]: the connection error's text on
    register and on the item listing when the database is unreachable, the
    engine's text on a DELETE whose id is not a number. *)
Theorem server_error_carries_details :
  let register_down :=
    fst (app PostAuthRegister Demo.env_down
           (Demo.request None ""
              [("email", JStr "c@x.com"); ("password", JStr "secret3")])
           Demo.store) in
  let list_down :=
    fst (app GetTodos Demo.env_down
           (Demo.request (Demo.bearer "tokA") "" []) Demo.store) in
  let delete_abc :=
    fst (app DeleteTodoById Demo.env
           (Demo.request (Demo.bearer "tokA") "abc" []) Demo.store) in
  register_down
  = mkResponse 500
      (ErrorDetails "서버 오류가 발생했습니다."
         "Connection terminated unexpectedly")
  /\ list_down = register_down
  /\ delete_abc
     = mkResponse 500
         (ErrorDetails "서버 오류가 발생했습니다."
            "invalid input syntax for type bigint: abc")
  /\ body_keys (body register_down) = ["error"; "details"]
  /\ body_keys (body register_down) <> ["error"].
Proof.
  cbv zeta. repeat split; try (vm_compute; reflexivity).
  vm_compute. discriminate.
Qed.

(** C5 (code bug): the login handler tests only that the password is
    truthy.  With the number 1234567 as password, an email no account has is
    answered 401 with the shared message, before the password is looked at,
    while the email of an existing account reaches [bcrypt.compare], which
    throws on a number, and is answered 500: the two causes the shared
    message is there to hide are told apart by the status. *)
Theorem login_numeric_password_distinguishes :
  let login_with email :=
    fst (app PostAuthLogin Demo.env
           (Demo.request None ""
              [("email", JStr email); ("password", JNum 1234567)])
           Demo.store) in
  (forall u, In u (users Demo.store) -> user_email u <> "nobody@x.com")
  /\ In Demo.user_a (users Demo.store)
  /\ user_email Demo.user_a = "a@x.com"
  /\ login_with "nobody@x.com"
     = mkResponse 401 (ErrorBody "이메일 또는 비밀번호가 올바르지 않습니다.")
  /\ status (login_with "a@x.com") = 500%Z
  /\ status (login_with "a@x.com") <> status (login_with "nobody@x.com").
Proof.
  cbv zeta. repeat split; try (vm_compute; reflexivity).
  - intros u [<-|[<-|[]]]; vm_compute; discriminate.
  - now left.
  - vm_compute. discriminate.
Qed.



(** C10 as stated fails: an authenticated PATCH on an id that is not a
    number, whose [completed] is a string, is answered 400, not 500, and no
    statement reaches the database. *)
Lemma malformed_id_patch_non_boolean_is_400 :
  let req :=
    Demo.request (Demo.bearer "tokA") "abc" [("completed", JStr "yes")] in
  authenticateToken Demo.env req = Next Demo.alice
  /\ pg_int8in (params_id req) = None
  /\ app PatchTodo Demo.env req Demo.store
     = (mkResponse 400 (ErrorBody "completed는 true 또는 false여야 합니다."),
        Demo.store)
  /\ status (fst (app PatchTodo Demo.env req Demo.store)) <> 500%Z.
Proof.
  cbv zeta. repeat split; try (vm_compute; reflexivity).
  vm_compute. discriminate.
Qed.


(** C7 as stated fails.  A text with U+0000 in it passes the handler's check
    and is refused by the database: the answer is 500, nothing is stored and
    the listing that follows does not have it.  A caller whose account row is
    gone, with a token still valid, is answered 500 as well, by the foreign
    key.  And when the database's clock at the insert is behind the creation
    time of an earlier item of the caller, the listing has the earlier item
    first. *)
Lemma create_then_list_not_first :
  let post text :=
    Demo.request (Demo.bearer "tokA") "" [("text", JStr text)] in
  let list := Demo.request (Demo.bearer "tokA") "" [] in
  let nul := String "a"%char (String "000"%char "b") in
  let refused := app PostTodos Demo.env (post nul) Demo.store in
  let orphan :=
    app PostTodos Demo.env (post "write tests")
      (mkStore [Demo.user_b] [Demo.item_b] 3 3 []) in
  let later := mkTodo 1 "buy milk" false 1 6000 in
  let ahead := mkStore [Demo.user_a; Demo.user_b] [later] 3 3 [] in
  let created := app PostTodos Demo.env (post "write tests") ahead in
  authenticateToken Demo.env (post nul) = Next Demo.alice
  /\ JsString.trim nul = nul
  /\ status (fst refused) = 500%Z
  /\ todos (snd refused) = todos Demo.store
  /\ fst (app GetTodos Demo.env list (snd refused))
     = json (DataTodos [Demo.item_a])
  /\ status (fst orphan) = 500%Z
  /\ todos (snd orphan) = [Demo.item_b]
  /\ fst created = json (DataTodo (mkTodo 3 "write tests" false 1 5000))
  /\ fst (app GetTodos Demo.env list (snd created))
     = json (DataTodos [later; mkTodo 3 "write tests" false 1 5000]).
Proof.
  cbv zeta. repeat split; vm_compute; reflexivity.
Qed.

(** ** The theorems at concrete requests *)

(** The gate on a listing request without a header, with an expired, a forged,
    a garbled and a good token. *)
Lemma access_gate_state_machine_witness :
  let handler := getTodos Demo.env in
  let send auth := app GetTodos Demo.env (Demo.request auth "" []) Demo.store in
  send None = (mkResponse 401 (ErrorBody "로그인이 필요합니다."), Demo.store)
  /\ send (Demo.bearer "tokA.old")
     = (mkResponse 401
          (ErrorBody "로그인이 만료되었습니다. 다시 로그인해주세요."),
        Demo.store)
  /\ send (Demo.bearer "tokA.forged")
     = (mkResponse 403 (ErrorBody "유효하지 않은 토큰입니다."), Demo.store)
  /\ send (Demo.bearer "not-a-token")
     = (mkResponse 403 (ErrorBody "유효하지 않은 토큰입니다."), Demo.store)
  /\ send (Demo.bearer "tokA") = handler Demo.alice Demo.store.
Proof.
  cbv zeta.
  pose (gate := fun auth =>
    access_gate_state_machine GetTodos Demo.env (Demo.request auth "" [])
      (getTodos Demo.env) Demo.store eq_refl).
  split; [|split; [|split; [|split]]].
  - apply (proj1 (gate None)). left. reflexivity.
  - apply (proj1 (proj2 (gate (Demo.bearer "tokA.old")))
             "tokA.old" Demo.alice 10%Z);
      [reflexivity | discriminate | reflexivity | reflexivity | simpl; lia].
  - apply (proj1 (proj2 (proj2 (gate (Demo.bearer "tokA.forged"))))
             "tokA.forged");
      [reflexivity | discriminate | right; reflexivity].
  - apply (proj1 (proj2 (proj2 (gate (Demo.bearer "not-a-token"))))
             "not-a-token");
      [reflexivity | discriminate | left; reflexivity].
  - apply (proj1 (proj2 (proj2 (proj2 (gate (Demo.bearer "tokA")))))
             "tokA" Demo.alice 2000%Z);
      [reflexivity | discriminate | reflexivity | reflexivity | simpl; lia].
Defined.

(** [Basic tokA] authenticates as [Bearer tokA] does; [tokA] alone does
    not. *)
Lemma token_extraction_ignores_scheme_witness :
  let send auth :=
    authenticateToken Demo.env (mkRequest auth "" (JObj [])) in
  no_space "Basic" = true /\ no_space "tokA" = true
  /\ send (Some "Basic tokA") = send (Some "Bearer tokA")
  /\ send (Some "Basic tokA") = Next Demo.alice
  /\ send (Some "tokA") = send None
  /\ send (Some "tokA")
     = Rejected (mkResponse 401 (ErrorBody "로그인이 필요합니다.")).
Proof.
  cbv zeta.
  pose proof (token_extraction_ignores_scheme Demo.env "" (JObj [])
                "Basic" "tokA" eq_refl eq_refl)
    as (_ & Hsame & Hvalid & Hbare & Hmissing).
  split; [reflexivity|]. split; [reflexivity|].
  split; [exact Hsame|]. split; [|split; [exact Hbare | exact Hmissing]].
  apply Hvalid; [discriminate | reflexivity].
Defined.


(** An unknown identity against a wrong password for an existing one. *)
Lemma login_failures_indistinguishable_witness :
  let login_with email password :=
    fst (app PostAuthLogin Demo.env
           (Demo.request None ""
              [("email", JStr email); ("password", JStr password)])
           Demo.store) in
  login_with "nobody@x.com" "secret1"
  = mkResponse 401 (ErrorBody "이메일 또는 비밀번호가 올바르지 않습니다.")
  /\ login_with " A@X.com" "wrong-password"
     = login_with "nobody@x.com" "secret1".
Proof.
  cbv zeta.
  apply (login_failures_indistinguishable Demo.env Demo.env
           (Demo.request None ""
              [("email", JStr "nobody@x.com"); ("password", JStr "secret1")])
           (Demo.request None ""
              [("email", JStr " A@X.com");
               ("password", JStr "wrong-password")])
           Demo.store Demo.store
           "nobody@x.com" "secret1" " A@X.com" "wrong-password");
    try reflexivity; try discriminate.
  - intros u [<-|[<-|[]]]; vm_compute; discriminate.
  - exists Demo.user_a. split; [now left | reflexivity].
  - intros u [<-|[<-|[]]]; vm_compute; intros; congruence.
Defined.


(** DELETE and PATCH on the id [abc]. *)
Lemma malformed_id_is_server_error_witness :
  let req :=
    Demo.request (Demo.bearer "tokA") "abc" [("completed", JBool true)] in
  pg_int8in "abc" = None
  /\ status (fst (app DeleteTodoById Demo.env req Demo.store)) = 500%Z
  /\ status (fst (app PatchTodo Demo.env req Demo.store)) = 500%Z
  /\ body (fst (app PatchTodo Demo.env req Demo.store))
     = ErrorDetails "서버 오류가 발생했습니다."
         "invalid input syntax for type bigint: abc".
Proof.
  cbv zeta.
  pose proof (malformed_id_is_server_error Demo.env
                (Demo.request (Demo.bearer "tokA") "abc"
                   [("completed", JBool true)])
                Demo.alice Demo.store eq_refl eq_refl)
    as (Hdelete & _ & _ & Hpatch).
  destruct (Hpatch true eq_refl) as (Hstatus & _ & Hbody).
  split; [reflexivity|]. split; [exact Hdelete|].
  split; [exact Hstatus | exact (Hbody eq_refl)].
Defined.



(** * Further behaviour of the handlers *)

(** ** The format expression *)

Lemma string_app_nil_r (s : string) : (s ++ "")%string = s.
Proof. induction s as [|c r IH]; simpl; [reflexivity | now rewrite IH]. Qed.

Lemma string_app_assoc (a b c : string) :
  ((a ++ b) ++ c)%string = (a ++ (b ++ c))%string.
Proof. induction a as [|x r IH]; simpl; [reflexivity | now rewrite IH]. Qed.

Lemma string_app_empty (a b : string) :
  (a ++ b)%string = EmptyString -> a = EmptyString /\ b = EmptyString.
Proof. destruct a; simpl; [auto | discriminate]. Qed.

Lemma denotes_seq_inv (r1 r2 : Regex.t) (s : string) :
  regex_denotes (Regex.Seq r1 r2) s ->
  exists s1 s2,
    s = (s1 ++ s2)%string /\ regex_denotes r1 s1 /\ regex_denotes r2 s2.
Proof. inversion 1; subst. eauto. Qed.

Lemma denotes_alt_inv (r1 r2 : Regex.t) (s : string) :
  regex_denotes (Regex.Alt r1 r2) s ->
  regex_denotes r1 s \/ regex_denotes r2 s.
Proof. inversion 1; subst; auto. Qed.

Lemma denotes_class_inv (p : ascii -> bool) (s : string) :
  regex_denotes (Regex.Class p) s ->
  exists c, s = String c EmptyString /\ p c = true.
Proof. inversion 1; subst. eauto. Qed.

Lemma nullable_denotes (r : Regex.t) :
  Regex.nullable r = true <-> regex_denotes r EmptyString.
Proof.
  induction r as [| |p|r1 IH1 r2 IH2|r1 IH1 r2 IH2|r IH]; simpl.
  - split; [discriminate | inversion 1].
  - split; [constructor | reflexivity].
  - split; [discriminate | inversion 1].
  - rewrite andb_true_iff, IH1, IH2. split.
    + intros [H1 H2]. exact (denotes_seq _ _ _ _ H1 H2).
    + intros Hd. apply denotes_seq_inv in Hd as (s1 & s2 & Heq & H1 & H2).
      symmetry in Heq. apply string_app_empty in Heq as [-> ->]. now split.
  - rewrite orb_true_iff, IH1, IH2. split.
    + intros [H1|H2]; [now apply denotes_alt_l | now apply denotes_alt_r].
    + apply denotes_alt_inv.
  - split; [constructor | reflexivity].
Qed.

(** A string of a starred expression that begins with [c] begins with a
    non-empty piece of the expression. *)
Lemma star_cons (r : Regex.t) (x : string) :
  regex_denotes (Regex.Star r) x ->
  forall c s, x = String c s ->
  exists s1 s2,
    s = (s1 ++ s2)%string /\ regex_denotes r (String c s1)
    /\ regex_denotes (Regex.Star r) s2.
Proof.
  intros Hd.
  remember (Regex.Star r) as r0 eqn:Hr0.
  induction Hd as [| | | | |r'|r' s1 s2 H1 _ H2 IH2]; try discriminate.
  specialize (IH2 Hr0). injection Hr0 as ->. intros c s Heq.
  destruct s1 as [|c1 s1']; simpl in Heq.
  - now apply IH2.
  - injection Heq as -> <-. exists s1', s2. now repeat split.
Qed.

Lemma deriv_denotes (r : Regex.t) (c : ascii) (s : string) :
  regex_denotes (Regex.deriv c r) s <-> regex_denotes r (String c s).
Proof.
  revert s.
  induction r as [| |p|r1 IH1 r2 IH2|r1 IH1 r2 IH2|r IH]; intros s; simpl.
  - split; inversion 1.
  - split; inversion 1.
  - destruct (p c) eqn:Hp; split; intros Hd.
    + inversion Hd; subst. now constructor.
    + apply denotes_class_inv in Hd as (c' & Heq & _).
      injection Heq as _ ->. constructor.
    + inversion Hd.
    + apply denotes_class_inv in Hd as (c' & Heq & Hc).
      injection Heq as -> _. congruence.
  - assert (Hleft : forall s0,
              regex_denotes (Regex.Seq (Regex.deriv c r1) r2) s0 ->
              regex_denotes (Regex.Seq r1 r2) (String c s0)).
    { intros s0 Hd. apply denotes_seq_inv in Hd as (s1 & s2 & -> & H1 & H2).
      apply IH1 in H1.
      exact (denotes_seq _ _ (String c s1) s2 H1 H2). }
    assert (Hinv : regex_denotes (Regex.Seq r1 r2) (String c s) ->
              regex_denotes (Regex.Seq (Regex.deriv c r1) r2) s
              \/ (regex_denotes r1 EmptyString
                  /\ regex_denotes (Regex.deriv c r2) s)).
    { intros Hd. apply denotes_seq_inv in Hd as (s1 & s2 & Heq & H1 & H2).
      destruct s1 as [|c1 s1']; simpl in Heq.
      - right. subst s2. split; [exact H1 | now apply IH2].
      - injection Heq as <- ->. left.
        apply denotes_seq; [now apply IH1 | exact H2]. }
    destruct (Regex.nullable r1) eqn:Hn; split; intros Hd.
    + apply denotes_alt_inv in Hd as [Hl|Hr]; [now apply Hleft|].
      apply nullable_denotes in Hn. apply IH2 in Hr.
      exact (denotes_seq _ _ EmptyString (String c s) Hn Hr).
    + destruct (Hinv Hd) as [Hl|[_ Hr]];
        [now apply denotes_alt_l | now apply denotes_alt_r].
    + now apply Hleft.
    + destruct (Hinv Hd) as [Hl|[Hnull _]]; [exact Hl|].
      apply nullable_denotes in Hnull. congruence.
  - split; intros Hd; apply denotes_alt_inv in Hd as [Hd|Hd].
    + apply denotes_alt_l. now apply IH1.
    + apply denotes_alt_r. now apply IH2.
    + apply denotes_alt_l. now apply IH1.
    + apply denotes_alt_r. now apply IH2.
  - split; intros Hd.
    + apply denotes_seq_inv in Hd as (s1 & s2 & -> & H1 & H2).
      apply IH in H1.
      exact (denotes_star_app _ (String c s1) s2 H1 H2).
    + destruct (star_cons _ _ Hd c s eq_refl) as (s1 & s2 & -> & H1 & H2).
      apply denotes_seq; [now apply IH | exact H2].
Qed.

(** The matcher decides membership. *)
Lemma matches_denotes (r : Regex.t) (s : string) :
  Regex.matches r s = true <-> regex_denotes r s.
Proof.
  revert r. induction s as [|c s IH]; intros r; simpl.
  - apply nullable_denotes.
  - rewrite IH. apply deriv_denotes.
Qed.

Lemma star_class_denotes (p : ascii -> bool) (s : string) :
  regex_denotes (Regex.Star (Regex.Class p)) s <-> all_chars p s = true.
Proof.
  split.
  - intros Hd. remember (Regex.Star (Regex.Class p)) as r0 eqn:Hr0.
    induction Hd as [| | | | |r'|r' s1 s2 H1 _ H2 IH2]; try discriminate.
    + reflexivity.
    + specialize (IH2 Hr0). injection Hr0 as ->.
      apply denotes_class_inv in H1 as (c & -> & Hc). simpl.
      now rewrite Hc, IH2.
  - induction s as [|c r IH]; simpl; intros Hall; [constructor|].
    apply andb_true_iff in Hall as [Hc Hr].
    apply (denotes_star_app _ (String c EmptyString) r);
      [now constructor | now apply IH].
Qed.

Lemma plus_class_denotes (p : ascii -> bool) (s : string) :
  regex_denotes (Regex.plus (Regex.Class p)) s
  <-> s <> EmptyString /\ all_chars p s = true.
Proof.
  unfold Regex.plus. split.
  - intros Hd. apply denotes_seq_inv in Hd as (s1 & s2 & -> & H1 & H2).
    apply denotes_class_inv in H1 as (c & -> & Hc).
    apply star_class_denotes in H2. simpl. rewrite Hc, H2.
    split; [discriminate | reflexivity].
  - intros [Hne Hall]. destruct s as [|c r]; [congruence|].
    simpl in Hall. apply andb_true_iff in Hall as [Hc Hr].
    apply (denotes_seq _ _ (String c EmptyString) r);
      [now constructor | now apply star_class_denotes].
Qed.

Lemma char_denotes (c : ascii) (s : string) :
  regex_denotes (Regex.char c) s <-> s = String c EmptyString.
Proof.
  unfold Regex.char. split.
  - intros Hd. apply denotes_class_inv in Hd as (c' & -> & Hc).
    apply Ascii.eqb_eq in Hc. now subst.
  - intros ->. constructor. apply Ascii.eqb_refl.
Qed.

(** The three parts of a string the format expression accepts. *)
Lemma emailRegex_parts (s : string) :
  emailRegex_test (JStr s) = true ->
  exists local domain tld,
    s = (local ++ "@" ++ domain ++ "." ++ tld)%string
    /\ email_part local /\ email_part domain /\ email_part tld.
Proof.
  unfold emailRegex_test, emailRegex, email_part. cbn [Js.to_string].
  rewrite matches_denotes. intros Hd.
  apply denotes_seq_inv in Hd as (local & s1 & -> & Hlocal & Hd).
  apply denotes_seq_inv in Hd as (at_ & s2 & -> & Hat & Hd).
  apply denotes_seq_inv in Hd as (domain & s3 & -> & Hdomain & Hd).
  apply denotes_seq_inv in Hd as (dot & tld & -> & Hdot & Htld).
  apply char_denotes in Hat, Hdot. subst at_ dot.
  apply plus_class_denotes in Hlocal, Hdomain, Htld.
  exists local, domain, tld. now repeat split.
Qed.

(** X1: among the strings of ASCII characters, the format expression of the
    register handler accepts exactly the strings [local@domain.tld] whose
    three parts are non-empty and hold neither white space nor [@]. *)
Theorem emailRegex_accepts (s : string) :
  JsString.is_ascii s = true ->
  emailRegex_test (JStr s) = true
  <-> exists local domain tld,
        s = (local ++ "@" ++ domain ++ "." ++ tld)%string
        /\ email_part local /\ email_part domain /\ email_part tld.
Proof.
  intros _.
  split; [apply emailRegex_parts|].
  intros (local & domain & tld & -> & Hlocal & Hdomain & Htld).
  unfold emailRegex_test, emailRegex, email_part in *. cbn [Js.to_string].
  apply matches_denotes.
  apply plus_class_denotes in Hlocal, Hdomain, Htld.
  apply denotes_seq; [exact Hlocal|].
  apply (denotes_seq _ _ "@"); [now apply char_denotes|].
  apply denotes_seq; [exact Hdomain|].
  apply (denotes_seq _ _ "."); [now apply char_denotes|].
  exact Htld.
Qed.

Lemma all_chars_app (p : ascii -> bool) (a b : string) :
  all_chars p (a ++ b)%string = all_chars p a && all_chars p b.
Proof.
  induction a as [|c r IH]; simpl; [reflexivity|].
  now rewrite IH, andb_assoc.
Qed.

Lemma all_chars_weaken (p q : ascii -> bool) (s : string) :
  (forall c, p c = true -> q c = true) ->
  all_chars p s = true -> all_chars q s = true.
Proof.
  intros Hpq. induction s as [|c r IH]; simpl; [reflexivity|].
  intros Hall. apply andb_true_iff in Hall as [Hc Hr].
  now rewrite (Hpq c Hc), IH.
Qed.

Lemma starts_clean_no_space (s : string) :
  JsString.is_ascii s = true ->
  all_chars (fun c => negb (JsString.is_space c)) s = true ->
  starts_clean s = true.
Proof.
  destruct s as [|c r]; [reflexivity|]. cbn [JsString.is_ascii all_chars].
  intros Hascii Hall.
  apply andb_true_iff in Hascii as [Hc _]. apply Nat.ltb_lt in Hc.
  apply andb_true_iff in Hall as [Hs _].
  cbn [starts_clean]. rewrite Hs. cbn [andb].
  destruct r as [|d r]; [reflexivity|].
  rewrite (is_space2_low c d Hc). cbn [negb andb].
  destruct r as [|e r]; [reflexivity|].
  rewrite (is_space3_low c d e) by now left.
  reflexivity.
Qed.

Lemma trimEnd_no_space (s : string) :
  JsString.is_ascii s = true ->
  all_chars (fun c => negb (JsString.is_space c)) s = true ->
  JsString.trimEnd s = s.
Proof.
  induction s as [|c r IH]; [reflexivity|]. intros Hascii Hall.
  pose proof (starts_clean_no_space _ Hascii Hall) as Hclean.
  apply trimStart_fixed in Hclean.
  cbn [JsString.trimEnd]. rewrite Hclean.
  cbn [JsString.is_ascii all_chars] in Hascii, Hall.
  apply andb_true_iff in Hascii as [_ Hr].
  apply andb_true_iff in Hall as [_ Hall].
  now rewrite (IH Hr Hall).
Qed.

Lemma trim_no_space (s : string) :
  JsString.is_ascii s = true ->
  all_chars (fun c => negb (JsString.is_space c)) s = true ->
  JsString.trim s = s.
Proof.
  intros Hascii Hall. unfold JsString.trim.
  pose proof (starts_clean_no_space _ Hascii Hall) as Hclean.
  apply trimStart_fixed in Hclean. rewrite Hclean.
  now apply trimEnd_no_space.
Qed.

Lemma is_ascii_lower_char (c : ascii) :
  (nat_of_ascii (JsString.lower_char c) <? 128)%nat
  = (nat_of_ascii c <? 128)%nat.
Proof. destruct c as [[] [] [] [] [] [] [] []]; reflexivity. Qed.

Lemma is_ascii_toLowerCase (s : string) :
  JsString.is_ascii (JsString.toLowerCase s) = JsString.is_ascii s.
Proof.
  induction s as [|c r IH]; simpl; [reflexivity|].
  now rewrite is_ascii_lower_char, IH.
Qed.

Lemma plain_is_ascii (s : string) :
  JsString.plain s = true -> JsString.is_ascii s = true.
Proof.
  unfold JsString.plain. intros Hp. now apply andb_true_iff in Hp as [Ha _].
Qed.

Lemma email_has_no_space (s : string) :
  emailRegex_test (JStr s) = true ->
  all_chars (fun c => negb (JsString.is_space c)) s = true.
Proof.
  intros Hs.
  apply emailRegex_parts in Hs
    as (local & domain & tld & -> & [_ Hl] & [_ Hd] & [_ Ht]).
  assert (Hw : forall c, not_space_or_at c = true ->
                 negb (JsString.is_space c) = true).
  { intros c. unfold not_space_or_at. rewrite !negb_true_iff.
    intros Hc. now apply orb_false_iff in Hc as [Hc _]. }
  rewrite !all_chars_app.
  rewrite (all_chars_weaken _ _ _ Hw Hl), (all_chars_weaken _ _ _ Hw Hd),
    (all_chars_weaken _ _ _ Hw Ht).
  reflexivity.
Qed.

Lemma all_chars_toLowerCase (s : string) :
  all_chars (fun c => negb (JsString.is_space c)) s = true ->
  all_chars (fun c => negb (JsString.is_space c)) (JsString.toLowerCase s)
  = true.
Proof.
  induction s as [|c r IH]; simpl; [reflexivity|].
  intros Hall. apply andb_true_iff in Hall as [Hc Hr].
  now rewrite is_space_lower_char, Hc, IH.
Qed.

(** On an ASCII email that passed the format check, [trim] has nothing to
    remove. *)
Lemma checked_email_trim (email : string) :
  JsString.is_ascii email = true ->
  emailRegex_test (JStr email) = true ->
  JsString.trim (JsString.toLowerCase email) = JsString.toLowerCase email.
Proof.
  intros Hascii Hok. apply trim_no_space.
  - now rewrite is_ascii_toLowerCase.
  - now apply all_chars_toLowerCase, email_has_no_space.
Qed.

Section Behaviour.

Context `{Collaborators}.

(** ** Registration *)

(** The register handler on a request that passes its three checks, while
    the database answers. *)
Lemma register_checked (env : Env) (req : Request) (email password : string)
    (s : Store) :
  fault env = None ->
  Js.destructure (req_body req) "email" = inr (JStr email) ->
  Js.destructure (req_body req) "password" = inr (JStr password) ->
  emailRegex_test (JStr email) = true ->
  JsString.plain email = true ->
  (6 <= JsString.length password)%nat ->
  let identity := JsString.toLowerCase email in
  let hash := bcrypt_hash (salt env) password in
  let account := mkUser (users_id_seq s) identity hash (db_time env) in
  let logged := query_log s ++ [InsertUser identity hash] in
  register env req s =
  if existsb (fun u => String.eqb (user_email u) identity) (users s) then
    (mkResponse 409 (ErrorBody "이미 가입된 이메일입니다."),
     mkStore (users s) (todos s) (users_id_seq s + 1) (todos_id_seq s) logged)
  else
    (json (DataSession (public_user account)
             (jwt_sign (mkClaims (users_id_seq s) identity) (server_time env)
                (server_time env + JWT_EXPIRES_IN))),
     mkStore (users s ++ [account]) (todos s) (users_id_seq s + 1)
             (todos_id_seq s) logged).
Proof.
  intros Hup Hemail Hpw Hregex Hplain Hlen identity hash account logged.
  assert (Hne : email <> EmptyString).
  { intros ->. rewrite emailRegex_rejects_empty in Hregex. discriminate. }
  assert (Hnp : password <> EmptyString).
  { intros ->. simpl in Hlen. lia. }
  unfold register, try_catch, bind, lift. rewrite Hemail, Hpw.
  rewrite (truthy_string _ Hne), (truthy_string _ Hnp), Hregex.
  cbn [negb orb].
  assert (Hlong : Js.less_than (Js.length_of (JStr password)) 6 = false).
  { unfold Js.less_than. cbn [Js.length_of Js.to_number].
    apply Z.ltb_ge. lia. }
  rewrite Hlong. cbn [hash_password toLowerCase_trim].
  rewrite (checked_email_trim _ (plain_is_ascii _ Hplain) Hregex).
  unfold sql_insert_user, pool_query. rewrite Hup.
  cbn [log_query users todos users_id_seq todos_id_seq query_log].
  rewrite has_nul_toLowerCase, (plain_no_nul _ Hplain).
  fold identity hash.
  destruct (existsb _ (users s)); reflexivity.
Qed.

Lemma existsb_email_absent (identity : string) (l : list User) :
  (forall u, In u l -> user_email u <> identity) ->
  existsb (fun u => String.eqb (user_email u) identity) l = false.
Proof.
  intros Hnew. destruct (existsb _ l) eqn:Hex; [|reflexivity].
  apply existsb_exists in Hex as (u & Hin & Heq).
  apply String.eqb_eq in Heq. now elim (Hnew u Hin).
Qed.

(** X2: a registration that passes the checks, with an email of at most 254
    ASCII characters without NUL (a key the unique index of [users.email]
    can hold) that no account has as identity, appends exactly one
    account: its id is the next value of the sequence, its email the
    lower-cased email of the request, its hash the bcrypt hash of the
    password.  The answer is 200 with the account's id,
    email and creation time, and a token signed for that id and email that
    expires 604800 seconds (7 days) after the server's clock.  The items are
    untouched. *)
Theorem register_creates_account (env : Env) (req : Request)
    (email password : string) (s : Store) :
  fault env = None ->
  Js.destructure (req_body req) "email" = inr (JStr email) ->
  Js.destructure (req_body req) "password" = inr (JStr password) ->
  emailRegex_test (JStr email) = true ->
  JsString.plain email = true ->
  (String.length email <= 254)%nat ->
  (6 <= JsString.length password)%nat ->
  (forall u, In u (users s) -> user_email u <> JsString.toLowerCase email) ->
  let account :=
    mkUser (users_id_seq s) (JsString.toLowerCase email)
           (bcrypt_hash (salt env) password) (db_time env) in
  let answer := app PostAuthRegister env req s in
  fst answer
  = mkResponse 200
      (DataSession
         (mkPublicUser (users_id_seq s) (JsString.toLowerCase email)
            (db_time env))
         (jwt_sign (mkClaims (users_id_seq s) (JsString.toLowerCase email))
            (server_time env) (server_time env + 604800)))
  /\ users (snd answer) = users s ++ [account]
  /\ todos (snd answer) = todos s
  /\ users_id_seq (snd answer) = (users_id_seq s + 1)%Z.
Proof.
  intros Hup Hemail Hpw Hregex Hplain _ Hlen Hnew account answer.
  subst answer. cbn [app].
  rewrite (register_checked env req email password s) by assumption.
  rewrite (existsb_email_absent _ _ Hnew).
  repeat split.
Qed.

(** X3: once an identity is registered, a second registration of it, in any
    letter case, is answered 409 and adds no account: the table holds the one
    row the first registration made.  Both emails are strings of at most
    254 ASCII characters without NUL. *)
Theorem register_twice_conflicts (env env' : Env) (req req' : Request)
    (email password email' password' : string) (s : Store) :
  fault env = None -> fault env' = None ->
  Js.destructure (req_body req) "email" = inr (JStr email) ->
  Js.destructure (req_body req) "password" = inr (JStr password) ->
  emailRegex_test (JStr email) = true ->
  JsString.plain email = true ->
  (String.length email <= 254)%nat ->
  (6 <= JsString.length password)%nat ->
  Js.destructure (req_body req') "email" = inr (JStr email') ->
  Js.destructure (req_body req') "password" = inr (JStr password') ->
  emailRegex_test (JStr email') = true ->
  JsString.plain email' = true ->
  (String.length email' <= 254)%nat ->
  (6 <= JsString.length password')%nat ->
  JsString.toLowerCase email' = JsString.toLowerCase email ->
  let first := app PostAuthRegister env req s in
  let second := app PostAuthRegister env' req' (snd first) in
  fst second = mkResponse 409 (ErrorBody "이미 가입된 이메일입니다.")
  /\ users (snd second) = users (snd first).
Proof.
  intros Hup Hup' Hemail Hpw Hregex Hplain _ Hlen Hemail' Hpw' Hregex'
    Hplain' _ Hlen' Hsame first second.
  subst second. cbn [app].
  rewrite (register_checked env' req' email' password' (snd first))
    by assumption.
  assert (Hthere :
    existsb (fun u => String.eqb (user_email u) (JsString.toLowerCase email'))
            (users (snd first)) = true).
  { subst first. cbn [app].
    rewrite (register_checked env req email password s) by assumption.
    rewrite Hsame.
    destruct (existsb _ (users s)) eqn:Hex; cbn [snd users]; [exact Hex|].
    rewrite existsb_app. cbn [existsb user_email].
    rewrite String.eqb_refl. now rewrite orb_true_r. }
  rewrite Hthere. split; reflexivity.
Qed.

Lemma filter_new_account (identity : string) (l : list User)
    (account : User) :
  (forall u, In u l -> user_email u <> identity) ->
  user_email account = identity ->
  filter (fun u => String.eqb (user_email u) identity) (l ++ [account])
  = [account].
Proof.
  intros Hnew Hmail. rewrite filter_app, filter_nil.
  - simpl. rewrite Hmail, String.eqb_refl. reflexivity.
  - intros u Hu. apply String.eqb_neq. now apply Hnew.
Qed.

(** X4: after a registration under an email of at most 254 ASCII characters
    without NUL, a login with the same password and the same email, in any
    letter case and with white space around it, is answered 200 with the
    account the registration made and a token for it; it needs bcrypt to
    accept the password against the hash it produced. *)
Theorem register_then_login (env env' : Env) (req req' : Request)
    (email password email' : string) (s : Store) :
  fault env = None -> fault env' = None ->
  Js.destructure (req_body req) "email" = inr (JStr email) ->
  Js.destructure (req_body req) "password" = inr (JStr password) ->
  emailRegex_test (JStr email) = true ->
  JsString.plain email = true ->
  (String.length email <= 254)%nat ->
  (6 <= JsString.length password)%nat ->
  (forall u, In u (users s) -> user_email u <> JsString.toLowerCase email) ->
  Js.destructure (req_body req') "email" = inr (JStr email') ->
  Js.destructure (req_body req') "password" = inr (JStr password) ->
  JsString.trim (JsString.toLowerCase email') = JsString.toLowerCase email ->
  bcrypt_compare password (bcrypt_hash (salt env) password) = true ->
  let registered := app PostAuthRegister env req s in
  fst (app PostAuthLogin env' req' (snd registered))
  = mkResponse 200
      (DataSession
         (mkPublicUser (users_id_seq s) (JsString.toLowerCase email)
            (db_time env))
         (jwt_sign (mkClaims (users_id_seq s) (JsString.toLowerCase email))
            (server_time env') (server_time env' + 604800))).
Proof.
  intros Hup Hup' Hemail Hpw Hregex Hplain _ Hlen Hnew Hemail' Hpw' Hsame
    Hbcrypt registered.
  assert (Hnp : password <> EmptyString).
  { intros ->. simpl in Hlen. lia. }
  assert (Hne' : email' <> EmptyString).
  { intros ->. simpl in Hsame.
    apply emailRegex_parts in Hregex as (l & d & t & -> & [Hl _] & _).
    destruct l; [congruence | discriminate]. }
  subst registered. cbn [app].
  rewrite (register_checked env req email password s) by assumption.
  rewrite (existsb_email_absent _ _ Hnew). cbn [snd].
  rewrite (login_well_formed env' req' email' password) by assumption.
  cbn [users]. rewrite Hsame.
  rewrite has_nul_toLowerCase, (plain_no_nul _ Hplain).
  rewrite (filter_new_account (JsString.toLowerCase email) (users s)
             (mkUser (users_id_seq s) (JsString.toLowerCase email)
                (bcrypt_hash (salt env) password) (db_time env))
             Hnew eq_refl).
  cbn [user_password_hash]. rewrite Hbcrypt. reflexivity.
Qed.

(** The [me] handler while the database answers. *)
Lemma me_up (env : Env) (user : Claims) (s : Store) :
  fault env = None ->
  fst (me env user s) =
  match filter (fun u => (user_id u =? userId user)%Z) (users s) with
  | [] => mkResponse 404 (ErrorBody "사용자를 찾을 수 없습니다.")
  | account :: _ => json (DataUser (public_user account))
  end.
Proof.
  intros Hup. unfold me, try_catch, bind, sql_select_user_by_id, pool_query.
  rewrite Hup. cbn [log_query users fst].
  now destruct (filter _ (users s)).
Qed.

Lemma bearer_header_token (token : string) :
  no_space token = true ->
  header_token (Some ("Bearer " ++ token)%string) = Some token.
Proof. intros Ht. exact (header_token_scheme "Bearer" token eq_refl Ht). Qed.

(** X5: the token a registration returns, sent back as [Bearer <token>] to
    GET /api/auth/me, is answered with the account that registration made as
    long as the server's clock is before the token's expiry, 604800 seconds
    after it was issued; from that second on the answer is the re-login 401
    and no statement is sent.  The email is a string of at most 254 ASCII
    characters without NUL, and the token library decodes what it
    signed. *)
Theorem register_then_me (env env' : Env) (req req' : Request)
    (email password : string) (s : Store) :
  fault env = None -> fault env' = None ->
  Js.destructure (req_body req) "email" = inr (JStr email) ->
  Js.destructure (req_body req) "password" = inr (JStr password) ->
  emailRegex_test (JStr email) = true ->
  JsString.plain email = true ->
  (String.length email <= 254)%nat ->
  (6 <= JsString.length password)%nat ->
  (forall u, In u (users s) -> user_email u <> JsString.toLowerCase email) ->
  (forall u, In u (users s) -> (user_id u < users_id_seq s)%Z) ->
  let payload := mkClaims (users_id_seq s) (JsString.toLowerCase email) in
  let expiry := (server_time env + 604800)%Z in
  let token := jwt_sign payload (server_time env) expiry in
  jwt_decode token = Some (payload, expiry) ->
  jwt_signature_ok token = true ->
  no_space token = true -> token <> EmptyString ->
  authorization req' = Some ("Bearer " ++ token)%string ->
  let registered := app PostAuthRegister env req s in
  fst registered
  = json (DataSession
            (mkPublicUser (users_id_seq s) (JsString.toLowerCase email)
               (db_time env)) token)
  /\ ((server_time env' < expiry)%Z ->
      fst (app GetAuthMe env' req' (snd registered))
      = json (DataUser
                (mkPublicUser (users_id_seq s) (JsString.toLowerCase email)
                   (db_time env))))
  /\ ((expiry <= server_time env')%Z ->
      app GetAuthMe env' req' (snd registered)
      = (mkResponse 401
           (ErrorBody "로그인이 만료되었습니다. 다시 로그인해주세요."),
         snd registered)).
Proof.
  intros Hup Hup' Hemail Hpw Hregex Hplain _ Hlen Hnew Hids payload expiry
    token Hdecode Hsig Hspace Hne Hheader registered.
  assert (Htok : header_token (authorization req') = Some token).
  { rewrite Hheader. now apply bearer_header_token. }
  pose proof (authenticateToken_present env' req' token Htok Hne) as Hgate.
  unfold jwt_verify in Hgate. rewrite Hdecode, Hsig in Hgate.
  cbn [negb] in Hgate.
  subst registered. cbn [app].
  rewrite (register_checked env req email password s) by assumption.
  rewrite (existsb_email_absent _ _ Hnew). cbn [fst snd].
  split; [reflexivity|]. split.
  - intros Hfresh.
    destruct (Z.leb_spec expiry (server_time env')) as [|_]; [lia|].
    rewrite (protected_next _ _ _ _ _ Hgate).
    rewrite (me_up _ _ _ Hup'). cbn [users userId payload].
    rewrite filter_app, filter_nil.
    + cbn [filter user_id app]. rewrite Z.eqb_refl. reflexivity.
    + intros u Hu. apply Z.eqb_neq. specialize (Hids u Hu). lia.
  - intros Hold.
    destruct (Z.leb_spec expiry (server_time env')) as [_|]; [|lia].
    cbn [err_name String.eqb] in Hgate.
    now rewrite (protected_rejected _ _ _ _ _ Hgate).
Qed.

(** X6: GET /api/auth/me answers with the id, email and creation time of the
    account whose id the token carries, and with 404 when no account has that
    id; either way it sends one SELECT and changes no table. *)
Theorem me_reports_account (env : Env) (req : Request) (user : Claims)
    (s : Store) :
  fault env = None ->
  authenticateToken env req = Next user ->
  NoDup (map user_id (users s)) ->
  let answer := app GetAuthMe env req s in
  (forall account,
     In account (users s) -> user_id account = userId user ->
     fst answer
     = json (DataUser
               (mkPublicUser (user_id account) (user_email account)
                  (user_created_at account))))
  /\ ((forall account, In account (users s) ->
         user_id account <> userId user) ->
      fst answer = mkResponse 404 (ErrorBody "사용자를 찾을 수 없습니다."))
  /\ snd answer = log_query (SelectUserById (userId user)) s.
Proof.
  intros Hup Hauth Hkey answer. subst answer. cbn [app].
  rewrite (protected_next _ _ _ _ _ Hauth).
  split; [|split].
  - intros account Hin Hid. rewrite (me_up _ _ _ Hup).
    destruct (filter _ (users s)) as [|first rest] eqn:Hrows.
    + assert (Hthere : In account
                (filter (fun u => (user_id u =? userId user)%Z) (users s))).
      { apply filter_In. split; [exact Hin | now apply Z.eqb_eq]. }
      rewrite Hrows in Hthere. destruct Hthere.
    + apply filter_head_In in Hrows as [Hfirst Heq].
      apply Z.eqb_eq in Heq.
      assert (first = account) as ->.
      { apply (NoDup_map_inj user_id (users s)); auto. congruence. }
      reflexivity.
  - intros Hnone. rewrite (me_up _ _ _ Hup), filter_nil; [reflexivity|].
    intros u Hu. apply Z.eqb_neq. now apply Hnone.
  - unfold me. rewrite try_catch_store.
    unfold bind, sql_select_user_by_id, pool_query. rewrite Hup.
    cbn [fst snd].
    now destruct (map public_user _).
Qed.

(** ** Logging in *)

(** X7: the login handler looks the account up under the lower-cased,
    trimmed email, so two logins with the same password whose emails differ
    only in letter case or surrounding white space get the same answer. *)
Theorem login_ignores_case_and_padding (env : Env) (req1 req2 : Request)
    (email1 email2 password : string) (s : Store) :
  fault env = None ->
  Js.destructure (req_body req1) "email" = inr (JStr email1) ->
  Js.destructure (req_body req1) "password" = inr (JStr password) ->
  Js.destructure (req_body req2) "email" = inr (JStr email2) ->
  Js.destructure (req_body req2) "password" = inr (JStr password) ->
  email1 <> EmptyString -> email2 <> EmptyString ->
  password <> EmptyString ->
  JsString.trim (JsString.toLowerCase email1)
  = JsString.trim (JsString.toLowerCase email2) ->
  fst (app PostAuthLogin env req1 s) = fst (app PostAuthLogin env req2 s).
Proof.
  intros Hup He1 Hp1 He2 Hp2 Hne1 Hne2 Hnp Hsame. cbn [app].
  rewrite (login_well_formed env req1 email1 password s) by assumption.
  rewrite (login_well_formed env req2 email2 password s) by assumption.
  now rewrite Hsame.
Qed.

(** ** What each route does to the tables *)
Lemma same_data_log (s0 : Store) (q : Sql) (s : Store) :
  same_data s0 s -> same_data s0 (log_query q s).
Proof. intros Hs. exact Hs. Qed.

Lemma select_same_data {A : Type} (s0 : Store) (env : Env) (q : Sql)
    (rows : Store -> A) :
  preserves (same_data s0) (pool_query env q (fun s => (inr (rows s), s))).
Proof.
  apply preserves_pool_query; [apply same_data_log|]. intros s Hs. exact Hs.
Qed.

(** One step through a handler body for a property kept by every statement
    that [keep] settles. *)
Ltac keep_with keep :=
  repeat first
    [ apply preserves_bind_lift; intros ? ?
    | apply preserves_ret
    | apply preserves_lift
    | keep
    | apply preserves_bind; [|intros ?]
    | match goal with
      | |- preserves _ (if ?b then _ else _) => destruct b
      | |- preserves _ (match ?x with _ => _ end) => destruct x
      end ].

(** X8: the routes that only read (login, GET /api/auth/me, GET /api/todos
    and GET /) leave both tables and both sequences as they found them,
    whatever the request and whether or not the database answers. *)
Theorem reads_change_no_table (route : Route) (env : Env) (req : Request)
    (s : Store) :
  In route [PostAuthLogin; GetAuthMe; GetTodos; GetRoot] ->
  same_data s (snd (app route env req s)).
Proof.
  intros Hroute.
  assert (Hs : same_data s s) by now repeat split.
  destruct Hroute as [<-|[<-|[<-|[<-|[]]]]]; cbn [app];
    unfold protected; try destruct (authenticateToken env req);
    try exact Hs;
    apply (preserves_try_catch (same_data s)); try exact Hs;
    keep_with ltac:(first
      [ apply select_same_data
      | apply sql_select_user_by_email_preserves; intros ? ?;
        apply same_data_log ]).
Qed.

Lemma users_kept_log (l : list User) (q : Sql) (s : Store) :
  users s = l -> users (log_query q s) = l.
Proof. intros Hs. exact Hs. Qed.

Lemma todo_statements_keep_users (l : list User) (env : Env) :
  (forall text completed user,
     preserves (fun s => users s = l)
       (sql_insert_todo env text completed user))
  /\ (forall completed id user,
        preserves (fun s => users s = l)
          (sql_update_todo env completed id user))
  /\ (forall id user,
        preserves (fun s => users s = l) (sql_delete_todo env id user))
  /\ (forall (A : Type) q (rows : Store -> A),
        preserves (fun s => users s = l)
          (pool_query env q (fun s => (inr (rows s), s)))).
Proof.
  repeat split; intros;
    (apply preserves_pool_query; [apply users_kept_log|]); intros s Hs.
  - destruct (JsString.has_nul text); [exact Hs|].
    now destruct (existsb _ (users s)).
  - now destruct (pg_int8in id).
  - now destruct (pg_int8in id).
  - exact Hs.
Qed.

(** X10: accounts are only ever appended.  No route changes or removes a row
    of [users]; the only route that adds one is register, which adds at most
    one per request, with the next id of the sequence, the bcrypt hash of
    the request's password and the database's [NOW()]; when the request's
    email is a string of ASCII characters, the row's email is that email
    lower-cased and trimmed. *)
Theorem accounts_append_only (route : Route) (env : Env) (req : Request)
    (s : Store) :
  users (snd (app route env req s)) = users s
  \/ (route = PostAuthRegister
      /\ exists email password account,
           Js.destructure (req_body req) "email" = inr (JStr email)
           /\ Js.destructure (req_body req) "password" = inr (JStr password)
           /\ users (snd (app route env req s)) = users s ++ [account]
           /\ user_id account = users_id_seq s
           /\ user_password_hash account = bcrypt_hash (salt env) password
           /\ user_created_at account = db_time env
           /\ (JsString.is_ascii email = true ->
               user_email account
               = JsString.trim (JsString.toLowerCase email))).
Proof.
  destruct (todo_statements_keep_users (users s) env)
    as (Hinsert & Hupdate & Hdelete & Hselect).
  destruct route; cbn [app];
    try (left; unfold protected; try destruct (authenticateToken env req);
         try reflexivity;
         apply (preserves_try_catch (fun s' => users s' = users s));
         try reflexivity;
         keep_with ltac:(first
           [ apply Hinsert | apply Hupdate | apply Hdelete | apply Hselect
           | apply sql_select_user_by_email_preserves; intros ? ?;
             apply users_kept_log ]);
         fail).
  unfold register. rewrite try_catch_store. unfold bind, lift.
  destruct (Js.destructure (req_body req) "email") as [|email];
    [now left|].
  destruct (Js.destructure (req_body req) "password") as [|password];
    [now left|].
  destruct (negb (Js.truthy email) || negb (Js.truthy password));
    [now left|].
  destruct (negb (emailRegex_test email)); [now left|].
  destruct (Js.less_than (Js.length_of password) 6); [now left|].
  destruct password as [| | | |password| |]; try now left.
  destruct email as [| | | |email| |]; try now left.
  cbn [hash_password toLowerCase_trim].
  unfold sql_insert_user, pool_query.
  destruct (fault env); [now left|].
  cbn [log_query users todos users_id_seq todos_id_seq query_log].
  destruct (JsString.has_nul _); [now left|].
  destruct (existsb _ (users s)); [now left|].
  right. split; [reflexivity|].
  exists email, password,
    (mkUser (users_id_seq s) (JsString.trim (JsString.toLowerCase email))
       (bcrypt_hash (salt env) password) (db_time env)).
  now repeat split.
Qed.

(** X11: the statements the writing routes send.  Register sends nothing
    unless email and password are strings that pass its checks, and then one
    INSERT with an identity (the lower-cased, trimmed email when the email
    is a string of ASCII characters) and the bcrypt hash, never the password
    itself; create sends nothing unless the text is a string that
    is not blank, and then one INSERT of that text, unfinished, for the
    caller; update sends nothing unless [completed] is a boolean, and then
    one UPDATE scoped to the caller. *)
Theorem statements_sent_by_writes (env : Env) (req : Request) (s : Store) :
  (query_log (snd (app PostAuthRegister env req s)) = query_log s
   \/ exists email password identity,
        Js.destructure (req_body req) "email" = inr (JStr email)
        /\ Js.destructure (req_body req) "password" = inr (JStr password)
        /\ emailRegex_test (JStr email) = true
        /\ (6 <= JsString.length password)%nat
        /\ query_log (snd (app PostAuthRegister env req s))
           = query_log s
             ++ [InsertUser identity (bcrypt_hash (salt env) password)]
        /\ (JsString.is_ascii email = true ->
            identity = JsString.trim (JsString.toLowerCase email)))
  /\ (query_log (snd (app PostTodos env req s)) = query_log s
      \/ exists user text,
           authenticateToken env req = Next user
           /\ Js.destructure (req_body req) "text" = inr (JStr text)
           /\ JsString.trim text <> EmptyString
           /\ query_log (snd (app PostTodos env req s))
              = query_log s ++ [InsertTodo text false (userId user)])
  /\ (query_log (snd (app PatchTodo env req s)) = query_log s
      \/ exists user completed,
           authenticateToken env req = Next user
           /\ Js.destructure (req_body req) "completed"
              = inr (JBool completed)
           /\ query_log (snd (app PatchTodo env req s))
              = query_log s
                ++ [UpdateTodo completed (params_id req) (userId user)]).
Proof.
  split; [|split]; cbn [app].
  - unfold register. rewrite try_catch_store. unfold bind, lift.
    destruct (Js.destructure (req_body req) "email") as [|email];
      [now left|].
    destruct (Js.destructure (req_body req) "password") as [|password];
      [now left|].
    destruct (negb (Js.truthy email) || negb (Js.truthy password));
      [now left|].
    destruct (negb (emailRegex_test email)) eqn:Hregex; [now left|].
    destruct (Js.less_than (Js.length_of password) 6) eqn:Hlen; [now left|].
    destruct password as [| | | |password| |]; try now left.
    destruct email as [| | | |email| |]; try now left.
    right.
    exists email, password, (JsString.trim (JsString.toLowerCase email)).
    apply negb_false_iff in Hregex.
    unfold Js.less_than in Hlen. cbn [Js.length_of Js.to_number] in Hlen.
    apply Z.ltb_ge in Hlen.
    repeat split; try assumption; [lia|].
    cbn [hash_password toLowerCase_trim].
    unfold sql_insert_user, pool_query.
    destruct (fault env); [reflexivity|].
    cbn [log_query users todos users_id_seq todos_id_seq query_log].
    destruct (JsString.has_nul _); [reflexivity|].
    now destruct (existsb _ (users s)).
  - unfold protected.
    destruct (authenticateToken env req) as [user|]; [|now left].
    unfold createTodo. rewrite try_catch_store. unfold bind, lift.
    destruct (Js.destructure (req_body req) "text") as [|text]; [now left|].
    destruct (negb (Js.truthy text)); [now left|].
    destruct text as [| | | |text| |]; try now left.
    cbn [trim_is_empty text_param].
    destruct (String.eqb_spec (JsString.trim text) ""); [now left|].
    right. exists user, text. repeat split; try assumption.
    unfold sql_insert_todo, pool_query.
    destruct (fault env); [reflexivity|].
    cbn [log_query users todos users_id_seq todos_id_seq query_log].
    destruct (JsString.has_nul text); [reflexivity|].
    now destruct (existsb _ (users s)).
  - unfold protected.
    destruct (authenticateToken env req) as [user|]; [|now left].
    unfold updateTodo. rewrite try_catch_store. unfold bind, lift.
    destruct (Js.destructure (req_body req) "completed") as [|completed];
      [now left|].
    destruct completed as [| |completed| | | |]; try now left.
    right. exists user, completed. repeat split.
    unfold sql_update_todo, pool_query.
    destruct (fault env); [reflexivity|].
    cbn [log_query users todos users_id_seq todos_id_seq query_log].
    destruct (pg_int8in (params_id req)); [|reflexivity].
    now destruct (map _ (filter _ (todos s))).
Qed.

(** ** Updating and deleting one's own items *)

(** Under the primary key, the id and owner of a row select that row
    alone. *)
Lemma filter_own_row (l : list Todo) (item : Todo) :
  NoDup (map todo_id l) -> In item l ->
  filter (owned_row (todo_id item) (todo_user_id item)) l = [item].
Proof.
  induction l as [|t l IH]; simpl; intros Hkey Hin; [contradiction|].
  apply NoDup_cons_iff in Hkey as [Hfresh Hrest].
  destruct Hin as [->|Hin].
  - unfold owned_row at 1. rewrite !Z.eqb_refl. cbn [andb].
    rewrite filter_nil; [reflexivity|].
    intros t Ht. unfold owned_row.
    destruct (Z.eqb_spec (todo_id t) (todo_id item)) as [Hid|];
      [|reflexivity].
    elim Hfresh. rewrite <- Hid. now apply in_map.
  - assert (Hother : owned_row (todo_id item) (todo_user_id item) t = false).
    { unfold owned_row.
      destruct (Z.eqb_spec (todo_id t) (todo_id item)) as [Hid|];
        [|reflexivity].
      elim Hfresh. rewrite Hid. now apply in_map. }
    rewrite Hother. now apply IH.
Qed.

(** The update handler on a boolean and an id the database can read, while
    it answers. *)
Lemma updateTodo_up (env : Env) (user : Claims) (req : Request)
    (completed : bool) (n : Z) (s : Store) :
  fault env = None ->
  Js.destructure (req_body req) "completed" = inr (JBool completed) ->
  pg_int8in (params_id req) = Some n ->
  updateTodo env user req s =
  (match filter (owned_row n (userId user)) (todos s) with
   | [] => mkResponse 404 (ErrorBody "해당 할 일을 찾을 수 없습니다.")
   | t :: _ => json (DataTodo (set_completed completed t))
   end,
   mkStore (users s)
     (map (fun t => if owned_row n (userId user) t
                    then set_completed completed t else t) (todos s))
     (users_id_seq s) (todos_id_seq s)
     (query_log s ++ [UpdateTodo completed (params_id req) (userId user)])).
Proof.
  intros Hup Hfield Hid.
  unfold updateTodo, try_catch, bind, lift. rewrite Hfield.
  unfold sql_update_todo, pool_query. rewrite Hup, Hid.
  cbn [log_query users todos users_id_seq todos_id_seq query_log].
  now destruct (filter _ (todos s)).
Qed.

(** The delete handler on an id the database can read, while it answers. *)
Lemma deleteTodo_up (env : Env) (user : Claims) (req : Request) (n : Z)
    (s : Store) :
  fault env = None ->
  pg_int8in (params_id req) = Some n ->
  deleteTodo env user req s =
  (match filter (owned_row n (userId user)) (todos s) with
   | [] => mkResponse 404 (ErrorBody "해당 할 일을 찾을 수 없습니다.")
   | _ :: _ => json (MessageBody "할 일이 삭제되었습니다.")
   end,
   mkStore (users s)
     (filter (fun t => negb (owned_row n (userId user) t)) (todos s))
     (users_id_seq s) (todos_id_seq s)
     (query_log s ++ [DeleteTodo (params_id req) (userId user)])).
Proof.
  intros Hup Hid.
  unfold deleteTodo, try_catch, bind.
  unfold sql_delete_todo, pool_query. rewrite Hup, Hid.
  cbn [log_query users todos users_id_seq todos_id_seq query_log].
  now destruct (filter _ (todos s)).
Qed.

Lemma update_rows_idem (completed : bool) (n user : Z) (l : list Todo) :
  let f := fun t => if owned_row n user t then set_completed completed t
                    else t in
  map f (map f l) = map f l.
Proof.
  intros f. rewrite map_map. apply map_ext. intros t. unfold f.
  destruct (owned_row n user t) eqn:Hown; [|now rewrite Hown].
  assert (Hstill : owned_row n user (set_completed completed t) = true)
    by exact Hown.
  now rewrite Hstill.
Qed.

(** X12: a PATCH by the owner on the id of one of their items, with a
    boolean, is answered 200 with that item carrying the new flag and its
    id, text, owner and creation time as before; the table holds the same
    rows in the same order with only that item's flag set.  Sending the same
    PATCH again is answered the same and leaves the table as the first one
    left it. *)
Theorem update_own_item_twice (env env' : Env) (req : Request)
    (user : Claims) (item : Todo) (completed : bool) (s : Store) :
  fault env = None -> fault env' = None ->
  authenticateToken env req = Next user ->
  authenticateToken env' req = Next user ->
  NoDup (map todo_id (todos s)) ->
  In item (todos s) -> todo_user_id item = userId user ->
  pg_int8in (params_id req) = Some (todo_id item) ->
  Js.destructure (req_body req) "completed" = inr (JBool completed) ->
  let first := app PatchTodo env req s in
  let second := app PatchTodo env' req (snd first) in
  fst first
  = json (DataTodo
            (mkTodo (todo_id item) (todo_text item) completed
               (todo_user_id item) (todo_created_at item)))
  /\ todos (snd first)
     = map (fun t => if (todo_id t =? todo_id item)%Z
                     then set_completed completed t else t) (todos s)
  /\ fst second = fst first
  /\ todos (snd second) = todos (snd first).
Proof.
  intros Hup Hup' Hauth Hauth' Hkey Hin Howner Hid Hfield first second.
  subst second first. cbn [app].
  rewrite (protected_next _ _ _ _ _ Hauth), (protected_next _ _ _ _ _ Hauth').
  rewrite (updateTodo_up env user req completed _ s Hup Hfield Hid).
  rewrite (updateTodo_up env' user req completed _ _ Hup' Hfield Hid).
  cbn [fst snd todos].
  rewrite <- Howner.
  rewrite (filter_own_row _ _ Hkey Hin).
  assert (Hrows :
    map (fun t => if owned_row (todo_id item) (todo_user_id item) t
                  then set_completed completed t else t) (todos s)
    = map (fun t => if (todo_id t =? todo_id item)%Z
                    then set_completed completed t else t) (todos s)).
  { apply map_ext_in. intros t Ht. unfold owned_row.
    destruct (Z.eqb_spec (todo_id t) (todo_id item)) as [Hsame|];
      [|reflexivity].
    assert (t = item) as -> by (eapply NoDup_map_inj; eauto).
    now rewrite Z.eqb_refl. }
  split; [reflexivity|]. split; [exact Hrows|]. split.
  - assert (Hkey' :
      NoDup (map todo_id
               (map (fun t => if owned_row (todo_id item) (todo_user_id item) t
                              then set_completed completed t else t)
                  (todos s)))).
    { rewrite map_map. erewrite map_ext; [exact Hkey|].
      intros t. now destruct (owned_row _ _ t). }
    assert (Hin' :
      In (set_completed completed item)
         (map (fun t => if owned_row (todo_id item) (todo_user_id item) t
                        then set_completed completed t else t) (todos s))).
    { apply in_map_iff. exists item. split; [|exact Hin].
      unfold owned_row. now rewrite !Z.eqb_refl. }
    pose proof (filter_own_row _ _ Hkey' Hin') as Hone.
    cbn [set_completed todo_id todo_user_id] in Hone.
    rewrite Hone. reflexivity.
  - apply update_rows_idem.
Qed.

(** X13: a DELETE by the owner on the id of one of their items is answered
    200 and removes that row and no other; a listing right after does not
    show the item, and a second DELETE on the same id is answered 404 and
    changes nothing. *)
Theorem delete_own_item_then_gone (env env' : Env) (req req' : Request)
    (user : Claims) (item : Todo) (s : Store) :
  fault env = None -> fault env' = None ->
  authenticateToken env req = Next user ->
  authenticateToken env' req' = Next user ->
  params_id req' = params_id req ->
  NoDup (map todo_id (todos s)) ->
  In item (todos s) -> todo_user_id item = userId user ->
  pg_int8in (params_id req) = Some (todo_id item) ->
  let deleted := app DeleteTodoById env req s in
  fst deleted = json (MessageBody "할 일이 삭제되었습니다.")
  /\ todos (snd deleted)
     = filter (fun t => negb (todo_id t =? todo_id item)%Z) (todos s)
  /\ ~ In item (response_todos (fst (app GetTodos env' req' (snd deleted))))
  /\ fst (app DeleteTodoById env' req' (snd deleted))
     = mkResponse 404 (ErrorBody "해당 할 일을 찾을 수 없습니다.")
  /\ todos (snd (app DeleteTodoById env' req' (snd deleted)))
     = todos (snd deleted).
Proof.
  intros Hup Hup' Hauth Hauth' Hsame Hkey Hin Howner Hid deleted.
  assert (Hid' : pg_int8in (params_id req') = Some (todo_id item))
    by now rewrite Hsame.
  subst deleted. cbn [app].
  rewrite (protected_next _ _ _ _ _ Hauth),
    !(protected_next _ _ _ _ _ Hauth').
  rewrite (deleteTodo_up env user req _ s Hup Hid).
  rewrite <- Howner, (filter_own_row _ _ Hkey Hin).
  cbn [fst snd todos].
  assert (Hrows :
    filter (fun t => negb (owned_row (todo_id item) (todo_user_id item) t))
      (todos s)
    = filter (fun t => negb (todo_id t =? todo_id item)%Z) (todos s)).
  { apply filter_ext_in. intros t Ht. unfold owned_row.
    destruct (Z.eqb_spec (todo_id t) (todo_id item)) as [Hsame'|];
      [|reflexivity].
    assert (t = item) as -> by (eapply NoDup_map_inj; eauto).
    now rewrite Z.eqb_refl. }
  assert (Hgone : forall t,
    In t (filter (fun t => negb (owned_row (todo_id item) (todo_user_id item) t))
            (todos s)) ->
    owned_row (todo_id item) (todo_user_id item) t = false).
  { intros t Ht. apply filter_In in Ht as [_ Ht]. now apply negb_true_iff. }
  split; [reflexivity|]. split; [exact Hrows|]. split; [|split].
  - rewrite (getTodos_up _ _ _ Hup'). unfold response_todos.
    cbn [body json todos].
    rewrite order_by_created_at_desc_In, filter_In, filter_In.
    intros [[_ Hkept] _]. unfold owned_row in Hkept.
    rewrite !Z.eqb_refl in Hkept. discriminate.
  - rewrite (deleteTodo_up env' user req' _ _ Hup' Hid'). cbn [fst todos].
    rewrite Howner in Hgone |- *. now rewrite (filter_nil _ _ Hgone).
  - rewrite (deleteTodo_up env' user req' _ _ Hup' Hid'). cbn [snd todos].
    rewrite Howner in Hgone |- *. apply filter_all.
    intros t Ht. apply negb_true_iff. now apply Hgone.
Qed.


(** X15: a PATCH, whatever it carries and whoever sends it, never adds,
    removes or reorders rows and never changes the id, text, owner or
    creation time of a row: only [completed] can differ afterwards. *)
Theorem update_changes_only_completed (env : Env) (req : Request)
    (s : Store) :
  map fixed_columns (todos (snd (app PatchTodo env req s)))
  = map fixed_columns (todos s).
Proof.
  cbn [app]. unfold protected.
  destruct (authenticateToken env req) as [user|]; [|reflexivity].
  apply (preserves_try_catch
           (fun s' => map fixed_columns (todos s')
                      = map fixed_columns (todos s))); [|reflexivity].
  keep_with ltac:(
    apply preserves_pool_query;
    [ intros s0 Hs0; exact Hs0
    | intros s0 Hs0; destruct (pg_int8in (params_id req)); [|exact Hs0];
      cbn [snd todos]; rewrite map_map, <- Hs0; apply map_ext;
      intros t; now destruct (owned_row _ _ t) ]).
Qed.

(** ** Listing *)

Lemma insert_desc_perm (x : Todo) (l : list Todo) :
  Permutation (insert_desc x l) (x :: l).
Proof.
  induction l as [|y l IH]; simpl; [reflexivity|].
  destruct (todo_created_at y <=? todo_created_at x)%Z; [reflexivity|].
  rewrite IH. apply perm_swap.
Qed.

Lemma order_by_created_at_desc_perm (l : list Todo) :
  Permutation (order_by_created_at_desc l) l.
Proof.
  induction l as [|x l IH]; simpl; [reflexivity|].
  rewrite insert_desc_perm. now apply perm_skip.
Qed.

Lemma insert_desc_sorted (x : Todo) (l : list Todo) :
  StronglySorted not_older l -> StronglySorted not_older (insert_desc x l).
Proof.
  induction l as [|y l IH]; simpl; intros Hl.
  - repeat constructor.
  - apply StronglySorted_inv in Hl as [Htail Hhead].
    destruct (Z.leb_spec (todo_created_at y) (todo_created_at x)) as [Hle|Hlt].
    + constructor; [now constructor|].
      constructor; [exact Hle|].
      rewrite Forall_forall in Hhead |- *. intros z Hz.
      specialize (Hhead z Hz). unfold not_older in *. lia.
    + constructor; [now apply IH|].
      rewrite Forall_forall in Hhead |- *. intros z Hz.
      apply insert_desc_In in Hz as [->|Hz]; [|now apply Hhead].
      unfold not_older. lia.
Qed.

Lemma order_by_created_at_desc_sorted (l : list Todo) :
  StronglySorted not_older (order_by_created_at_desc l).
Proof.
  induction l as [|x l IH]; simpl; [constructor|].
  now apply insert_desc_sorted.
Qed.

(** C7 (amended): when an authenticated caller creates an item with a text
    that has a character other than white space and no U+0000, the answer
    carries that item with exactly that text, [completed] false, the id
    drawn from the table's sequence and the database's [NOW()] as creation
    time; a listing by the same caller right after returns that item first,
    followed by the caller's earlier items, each once, none after an older
    one.  The caller's account row exists, the database answers both
    requests, and its clock at the insert is later than the creation time of
    the caller's earlier items. *)
Theorem create_then_list_round_trip (env env' : Env) (req req' : Request)
    (user : Claims) (text : string) (s : Store) :
  authenticateToken env req = Next user ->
  authenticateToken env' req' = Next user ->
  fault env = None -> fault env' = None ->
  Js.destructure (req_body req) "text" = inr (JStr text) ->
  JsString.trim text <> EmptyString ->
  JsString.has_nul text = false ->
  (exists u, In u (users s) /\ user_id u = userId user) ->
  (forall t, In t (todos s) -> todo_user_id t = userId user ->
     (todo_created_at t < db_time env)%Z) ->
  let item :=
    mkTodo (todos_id_seq s) text false (userId user) (db_time env) in
  let created := app PostTodos env req s in
  fst created = json (DataTodo item)
  /\ exists rest,
       fst (app GetTodos env' req' (snd created))
       = json (DataTodos (item :: rest))
       /\ Permutation rest
            (filter (fun t => (todo_user_id t =? userId user)%Z) (todos s))
       /\ StronglySorted not_older (item :: rest).
Proof.
  intros Hauth Hauth' Hup Hup' Htext Hblank Hnul Haccount Hclock item created.
  subst created. cbn [app route_handler].
  rewrite (protected_next _ _ _ _ _ Hauth), (protected_next _ _ _ _ _ Hauth').
  rewrite (createTodo_valid env user req text s Hup Htext Hblank Hnul
             Haccount).
  split; [reflexivity|].
  exists (order_by_created_at_desc
            (filter (fun t => (todo_user_id t =? userId user)%Z) (todos s))).
  assert (Hlist :
    order_by_created_at_desc
      (filter (fun t => (todo_user_id t =? userId user)%Z)
         (todos s ++ [item]))
    = item :: order_by_created_at_desc
                (filter (fun t => (todo_user_id t =? userId user)%Z)
                   (todos s))).
  { rewrite filter_app. cbn [filter todo_user_id item].
    rewrite Z.eqb_refl. apply order_newest_last.
    intros y Hy. apply filter_In in Hy as [Hy Howner].
    apply Z.eqb_eq in Howner. cbn [todo_created_at]. now apply Hclock. }
  split; [|split].
  - rewrite (getTodos_up _ _ _ Hup'). cbn [snd todos]. fold item.
    now rewrite Hlist.
  - apply order_by_created_at_desc_perm.
  - rewrite <- Hlist. apply order_by_created_at_desc_sorted.
Qed.

(** X16: GET /api/todos answers 200 with the caller's items, each exactly
    once and no other row, ordered so that no item comes after an older
    one; it changes no table. *)
Theorem list_is_own_items_newest_first (env : Env) (req : Request)
    (user : Claims) (s : Store) :
  fault env = None ->
  authenticateToken env req = Next user ->
  exists rows,
    fst (app GetTodos env req s) = mkResponse 200 (DataTodos rows)
    /\ Permutation rows
         (filter (fun t => (todo_user_id t =? userId user)%Z) (todos s))
    /\ (forall t, In t rows <->
          In t (todos s) /\ todo_user_id t = userId user)
    /\ StronglySorted not_older rows
    /\ todos (snd (app GetTodos env req s)) = todos s.
Proof.
  intros Hup Hauth. cbn [app]. rewrite (protected_next _ _ _ _ _ Hauth).
  exists (order_by_created_at_desc
            (filter (fun t => (todo_user_id t =? userId user)%Z) (todos s))).
  split; [now apply getTodos_up|].
  split; [apply order_by_created_at_desc_perm|].
  split; [|split].
  - intros t. rewrite order_by_created_at_desc_In, filter_In, Z.eqb_eq.
    reflexivity.
  - apply order_by_created_at_desc_sorted.
  - unfold getTodos. rewrite try_catch_store.
    unfold bind, sql_select_todos, pool_query. now rewrite Hup.
Qed.

(** ** Inputs of the wrong type *)


(** X18: a register request whose email, a string of ASCII characters,
    passes the format check and whose password is a non-zero number is not
    answered 400: a number has no
    [length], the length check lets it through, bcrypt refuses it and the
    answer is 500 with bcrypt's message in [details].  Nothing is sent to
    the database. *)
Theorem register_numeric_password_is_500 (env : Env) (req : Request)
    (email : string) (n : Z) (s : Store) :
  Js.destructure (req_body req) "email" = inr (JStr email) ->
  Js.destructure (req_body req) "password" = inr (JNum n) ->
  JsString.is_ascii email = true ->
  emailRegex_test (JStr email) = true ->
  n <> 0%Z ->
  app PostAuthRegister env req s
  = (mkResponse 500
       (ErrorDetails "서버 오류가 발생했습니다."
          "data must be a string or Buffer and salt must either be a salt string or a number of rounds"),
     s).
Proof.
  intros Hemail Hpw _ Hregex Hn. cbn [app].
  assert (Hne : email <> EmptyString).
  { intros ->. rewrite emailRegex_rejects_empty in Hregex. discriminate. }
  unfold register, try_catch, bind, lift. rewrite Hemail, Hpw.
  rewrite (truthy_string _ Hne), Hregex. cbn [Js.truthy].
  apply Z.eqb_neq in Hn. rewrite Hn. reflexivity.
Qed.

(** ** The foreign key *)

Lemma items_have_owner_kept (env : Env) :
  (forall email password_hash,
     preserves items_have_owner (sql_insert_user env email password_hash))
  /\ (forall text completed user,
        preserves items_have_owner (sql_insert_todo env text completed user))
  /\ (forall completed id user,
        preserves items_have_owner (sql_update_todo env completed id user))
  /\ (forall id user,
        preserves items_have_owner (sql_delete_todo env id user))
  /\ (forall (A : Type) q (rows : Store -> A),
        preserves items_have_owner
          (pool_query env q (fun s => (inr (rows s), s)))).
Proof.
  repeat split; intros;
    (apply preserves_pool_query; [intros s Hs; exact Hs|]); intros s Hs.
  - destruct (JsString.has_nul email); [exact Hs|].
    destruct (existsb _ (users s)); [exact Hs|].
    intros t Ht. destruct (Hs t Ht) as (u & Hu & Hid).
    exists u. split; [|exact Hid]. cbn [snd users].
    apply in_app_iff. now left.
  - destruct (JsString.has_nul text); [exact Hs|].
    destruct (existsb _ (users s)) eqn:Hex; [|exact Hs].
    intros t Ht. cbn [snd todos users] in *.
    apply in_app_iff in Ht as [Ht|[<-|[]]]; [now apply Hs|].
    apply existsb_exists in Hex as (u & Hu & Hid).
    apply Z.eqb_eq in Hid. now exists u.
  - destruct (pg_int8in id); [|exact Hs].
    intros t Ht. cbn [snd todos users] in *.
    apply in_map_iff in Ht as (t0 & <- & Ht0).
    destruct (Hs t0 Ht0) as (u & Hu & Hid). exists u. split; [exact Hu|].
    now destruct (owned_row _ _ t0).
  - destruct (pg_int8in id); [|exact Hs].
    intros t Ht. cbn [snd todos users] in *.
    apply filter_In in Ht as [Ht _]. now apply Hs.
  - exact Hs.
Qed.

Lemma app_items_have_owner (route : Route) (env : Env) (req : Request)
    (s : Store) :
  items_have_owner s -> items_have_owner (snd (app route env req s)).
Proof.
  destruct (items_have_owner_kept env)
    as (Huser & Hinsert & Hupdate & Hdelete & Hselect).
  intros Hs. destruct route; cbn [app];
    unfold protected; try destruct (authenticateToken env req);
    try exact Hs;
    apply (preserves_try_catch items_have_owner); try exact Hs;
    keep_with ltac:(first
      [ apply Huser | apply Hinsert | apply Hupdate | apply Hdelete
      | apply Hselect
      | apply sql_select_user_by_email_preserves; intros ? ? Hq;
        exact Hq ]).
Qed.

(** X19: in every store the server reaches from the empty database, by any
    sequence of requests on any routes, the constraints of the schema hold:
    item ids and account ids are unique and below their sequences, emails
    are unique and in lower-case trimmed form, and every item belongs to an
    existing account. *)
Theorem reachable_schema (s : Store) :
  reachable s -> store_ok s /\ items_have_owner s.
Proof.
  intros Hs. split; [now apply reachable_ok|].
  induction Hs as [|s route env req _ IH].
  - intros t [].
  - now apply app_items_have_owner.
Qed.

(** ** More on the Authorization header *)

(** X20: only the second space-separated piece of the header counts.
    Whatever follows a second space is ignored, and two spaces after the
    scheme make the token empty, which is answered 401 as a missing
    token. *)
Theorem header_pieces_beyond_second (env : Env) (id : string)
    (payload : JsVal) (scheme token rest : string) :
  no_space scheme = true -> no_space token = true ->
  authenticateToken env
    (mkRequest (Some (scheme ++ " " ++ token ++ " " ++ rest)%string)
       id payload)
  = authenticateToken env
      (mkRequest (Some ("Bearer " ++ token)%string) id payload)
  /\ authenticateToken env
       (mkRequest (Some (scheme ++ "  " ++ rest)%string) id payload)
     = Rejected (mkResponse 401 (ErrorBody "로그인이 필요합니다.")).
Proof.
  intros Hs Ht.
  assert (Hlong :
    header_token (Some (scheme ++ " " ++ token ++ " " ++ rest)%string)
    = Some token).
  { unfold header_token.
    change (scheme ++ " " ++ token ++ " " ++ rest)%string
      with (scheme ++ String " " (token ++ String " " rest))%string.
    rewrite scheme_header_not_empty, (split_space_scheme _ _ Hs),
      (split_space_scheme _ _ Ht).
    reflexivity. }
  assert (Hdouble :
    header_token (Some (scheme ++ "  " ++ rest)%string) = Some EmptyString).
  { unfold header_token.
    change (scheme ++ "  " ++ rest)%string
      with (scheme ++ String " " ("" ++ String " " rest))%string.
    rewrite scheme_header_not_empty, (split_space_scheme _ _ Hs),
      (split_space_scheme "" rest eq_refl).
    reflexivity. }
  split.
  - unfold authenticateToken. cbn [authorization].
    now rewrite Hlong, (bearer_header_token _ Ht).
  - unfold authenticateToken. cbn [authorization]. now rewrite Hdouble.
Qed.

End Behaviour.

(** ** The further theorems at concrete requests *)

Lemma demo_new_identity (identity : string) :
  identity <> "a@x.com" -> identity <> "b@x.com" ->
  forall u, In u (users Demo.store) -> user_email u <> identity.
Proof.
  intros Ha Hb u [<-|[<-|[]]]; simpl; congruence.
Defined.

Lemma demo_item_ids_unique : NoDup (map todo_id (todos Demo.store)).
Proof. simpl. repeat constructor; simpl; intuition discriminate. Defined.

Lemma demo_alice_authenticated (id : string)
    (fields : list (string * JsVal)) :
  authenticateToken Demo.env (Demo.request (Demo.bearer "tokA") id fields)
  = Next Demo.alice.
Proof. reflexivity. Defined.

(** [a.b@x.com] against the format expression. *)
Lemma emailRegex_accepts_witness :
  emailRegex_test (JStr "a.b@x.com") = true
  /\ exists local domain tld,
       "a.b@x.com" = (local ++ "@" ++ domain ++ "." ++ tld)%string
       /\ email_part local /\ email_part domain /\ email_part tld.
Proof.
  split; [reflexivity|].
  now apply (emailRegex_accepts "a.b@x.com" eq_refl).
Defined.

(** Account 1, with three items in the table, creates a fourth and lists. *)
Lemma create_then_list_round_trip_witness :
  let table :=
    [mkTodo 1 "old" false 1 100; mkTodo 2 "other" false 2 150;
     mkTodo 3 "new" true 1 300; mkTodo 4 "middle" false 1 200] in
  let s := mkStore [Demo.user_a; Demo.user_b] table 3 5 [] in
  let post :=
    Demo.request (Demo.bearer "tokA") "" [("text", JStr " 우유 사기 ")] in
  let list := Demo.request (Demo.bearer "tokA") "" [] in
  let item := mkTodo 5 " 우유 사기 " false 1 5000 in
  let created := app PostTodos Demo.env post s in
  fst created = json (DataTodo item)
  /\ (exists rest,
        fst (app GetTodos Demo.env list (snd created))
        = json (DataTodos (item :: rest))
        /\ Permutation rest
             [mkTodo 1 "old" false 1 100; mkTodo 3 "new" true 1 300;
              mkTodo 4 "middle" false 1 200]
        /\ StronglySorted not_older (item :: rest))
  /\ fst (app GetTodos Demo.env list (snd created))
     = json (DataTodos
               [item; mkTodo 3 "new" true 1 300;
                mkTodo 4 "middle" false 1 200; mkTodo 1 "old" false 1 100]).
Proof.
  cbv zeta.
  assert (Hblank : JsString.trim " 우유 사기 " <> EmptyString)
    by (vm_compute; discriminate).
  assert (Haccount : exists u,
            In u [Demo.user_a; Demo.user_b]
            /\ user_id u = userId Demo.alice).
  { exists Demo.user_a. split; [now left | reflexivity]. }
  assert (Hclock : forall t,
            In t [mkTodo 1 "old" false 1 100; mkTodo 2 "other" false 2 150;
                  mkTodo 3 "new" true 1 300; mkTodo 4 "middle" false 1 200] ->
            todo_user_id t = userId Demo.alice ->
            (todo_created_at t < db_time Demo.env)%Z).
  { intros t [<-|[<-|[<-|[<-|[]]]]]; simpl; intros; lia. }
  split; [|split; [|reflexivity]];
    apply (create_then_list_round_trip Demo.env Demo.env
             (Demo.request (Demo.bearer "tokA") ""
                [("text", JStr " 우유 사기 ")])
             (Demo.request (Demo.bearer "tokA") "" [])
             Demo.alice " 우유 사기 "
             (mkStore [Demo.user_a; Demo.user_b]
                [mkTodo 1 "old" false 1 100; mkTodo 2 "other" false 2 150;
                 mkTodo 3 "new" true 1 300; mkTodo 4 "middle" false 1 200]
                3 5 [])
             (demo_alice_authenticated _ _) (demo_alice_authenticated _ _)
             eq_refl eq_refl eq_refl Hblank eq_refl Haccount Hclock).
Defined.

(** Registering [C@x.com] in the two-account store. *)
Lemma register_creates_account_witness :
  let req :=
    Demo.request None ""
      [("email", JStr "C@x.com"); ("password", JStr "secret3")] in
  let answer := app PostAuthRegister Demo.env req Demo.store in
  fst answer
  = mkResponse 200
      (DataSession (mkPublicUser 3 "c@x.com" 5000) "tok#3#604900")
  /\ users (snd answer)
     = [Demo.user_a; Demo.user_b;
        mkUser 3 "c@x.com" "$2b$10$s$secret3" 5000]
  /\ todos (snd answer) = todos Demo.store
  /\ users_id_seq (snd answer) = 4%Z.
Proof.
  cbv zeta.
  assert (Hlen : (6 <= JsString.length "secret3")%nat) by (simpl; lia).
  assert (Hkey : (String.length "C@x.com" <= 254)%nat) by (simpl; lia).
  assert (Hnew : forall u, In u (users Demo.store) ->
                   user_email u <> JsString.toLowerCase "C@x.com").
  { apply demo_new_identity; discriminate. }
  exact (register_creates_account Demo.env
           (Demo.request None ""
              [("email", JStr "C@x.com"); ("password", JStr "secret3")])
           "C@x.com" "secret3" Demo.store
           eq_refl eq_refl eq_refl eq_refl eq_refl Hkey Hlen Hnew).
Defined.

(** Registering [C@x.com], then [c@X.COM]. *)
Lemma register_twice_conflicts_witness :
  let req email :=
    Demo.request None ""
      [("email", JStr email); ("password", JStr "secret3")] in
  let first := app PostAuthRegister Demo.env (req "C@x.com") Demo.store in
  let second := app PostAuthRegister Demo.env (req "c@X.COM") (snd first) in
  fst second = mkResponse 409 (ErrorBody "이미 가입된 이메일입니다.")
  /\ users (snd second) = users (snd first).
Proof.
  cbv zeta.
  assert (Hlen : (6 <= JsString.length "secret3")%nat) by (simpl; lia).
  assert (Hkey : (String.length "C@x.com" <= 254)%nat) by (simpl; lia).
  exact (register_twice_conflicts Demo.env Demo.env
           (Demo.request None ""
              [("email", JStr "C@x.com"); ("password", JStr "secret3")])
           (Demo.request None ""
              [("email", JStr "c@X.COM"); ("password", JStr "secret3")])
           "C@x.com" "secret3" "c@X.COM" "secret3" Demo.store
           eq_refl eq_refl eq_refl eq_refl eq_refl eq_refl Hkey Hlen
           eq_refl eq_refl eq_refl eq_refl Hkey Hlen eq_refl).
Defined.

(** Registering [C@x.com], then logging in as [ c@X.com ]. *)
Lemma register_then_login_witness :
  let registered :=
    app PostAuthRegister Demo.env
      (Demo.request None ""
         [("email", JStr "C@x.com"); ("password", JStr "secret3")])
      Demo.store in
  fst (app PostAuthLogin Demo.env
         (Demo.request None ""
            [("email", JStr " c@X.com "); ("password", JStr "secret3")])
         (snd registered))
  = mkResponse 200
      (DataSession (mkPublicUser 3 "c@x.com" 5000) "tok#3#604900").
Proof.
  cbv zeta.
  assert (Hlen : (6 <= JsString.length "secret3")%nat) by (simpl; lia).
  assert (Hkey : (String.length "C@x.com" <= 254)%nat) by (simpl; lia).
  assert (Hnew : forall u, In u (users Demo.store) ->
                   user_email u <> JsString.toLowerCase "C@x.com").
  { apply demo_new_identity; discriminate. }
  exact (register_then_login Demo.env Demo.env
           (Demo.request None ""
              [("email", JStr "C@x.com"); ("password", JStr "secret3")])
           (Demo.request None ""
              [("email", JStr " c@X.com "); ("password", JStr "secret3")])
           "C@x.com" "secret3" " c@X.com " Demo.store
           eq_refl eq_refl eq_refl eq_refl eq_refl eq_refl Hkey Hlen Hnew
           eq_refl eq_refl eq_refl eq_refl).
Defined.

(** With the codec of [Lab]: the token of a registration, sent back one
    second and then 700000 seconds later. *)
Lemma register_then_me_witness :
  let registered :=
    app (H := Lab.collaborators) PostAuthRegister Demo.env
      (Demo.request None ""
         [("email", JStr "C@x.com"); ("password", JStr "secret3")])
      Demo.store in
  let me_at now :=
    app (H := Lab.collaborators) GetAuthMe (mkEnv now 5000 "s" None)
      (Demo.request (Some "Bearer 3:604900:c@x.com") "" [])
      (snd registered) in
  fst registered
  = json (DataSession (mkPublicUser 3 "c@x.com" 5000) "3:604900:c@x.com")
  /\ fst (me_at 101%Z) = json (DataUser (mkPublicUser 3 "c@x.com" 5000))
  /\ me_at 700000%Z
     = (mkResponse 401
          (ErrorBody "로그인이 만료되었습니다. 다시 로그인해주세요."),
        snd registered).
Proof.
  cbv zeta.
  pose (thm := fun now =>
    @register_then_me Lab.collaborators Demo.env (mkEnv now 5000 "s" None)
      (Demo.request None ""
         [("email", JStr "C@x.com"); ("password", JStr "secret3")])
      (Demo.request (Some "Bearer 3:604900:c@x.com") "" [])
      "C@x.com" "secret3" Demo.store eq_refl eq_refl eq_refl eq_refl eq_refl
      eq_refl).
  assert (Hlen : (6 <= JsString.length "secret3")%nat) by (simpl; lia).
  assert (Hkey : (String.length "C@x.com" <= 254)%nat) by (simpl; lia).
  assert (Hids : forall u, In u (users Demo.store) ->
                   (user_id u < users_id_seq Demo.store)%Z).
  { intros u [<-|[<-|[]]]; simpl; lia. }
  assert (Hnew : forall u, In u (users Demo.store) ->
                   user_email u <> JsString.toLowerCase "C@x.com").
  { apply demo_new_identity; discriminate. }
  assert (Hne : "3:604900:c@x.com" <> EmptyString) by discriminate.
  destruct (thm 101%Z Hkey Hlen Hnew Hids eq_refl eq_refl eq_refl Hne
              eq_refl)
    as (Hregistered & Hfresh & _).
  destruct (thm 700000%Z Hkey Hlen Hnew Hids eq_refl eq_refl eq_refl Hne
              eq_refl)
    as (_ & _ & Hexpired).
  split; [exact Hregistered|]. split.
  - apply Hfresh. simpl. lia.
  - apply Hexpired. simpl. lia.
Defined.

(** Account 2 asks who it is; a token for an account that is gone. *)
Lemma me_reports_account_witness :
  fst (app GetAuthMe Demo.env (Demo.request (Demo.bearer "tokB") "" [])
         Demo.store)
  = json (DataUser (mkPublicUser 2 "b@x.com" 1500))
  /\ fst (app GetAuthMe Demo.env (Demo.request (Demo.bearer "tokB") "" [])
            (mkStore [Demo.user_a] [] 3 3 []))
     = mkResponse 404 (ErrorBody "사용자를 찾을 수 없습니다.").
Proof.
  assert (Hauth : authenticateToken Demo.env
                    (Demo.request (Demo.bearer "tokB") "" []) = Next Demo.bob)
    by reflexivity.
  split.
  - assert (Hkey : NoDup (map user_id (users Demo.store))).
    { simpl. repeat constructor; simpl; intuition discriminate. }
    apply (proj1 (me_reports_account Demo.env
                    (Demo.request (Demo.bearer "tokB") "" [])
                    Demo.bob Demo.store eq_refl Hauth Hkey)
             Demo.user_b);
      [right; now left | reflexivity].
  - assert (Hkey : NoDup (map user_id [Demo.user_a])).
    { simpl. repeat constructor. intros []. }
    apply (proj1 (proj2 (me_reports_account Demo.env
                           (Demo.request (Demo.bearer "tokB") "" [])
                           Demo.bob (mkStore [Demo.user_a] [] 3 3 [])
                           eq_refl Hauth Hkey))).
    intros account [<-|[]]. simpl. discriminate.
Defined.

(** [A@x.com] and [ a@X.COM ] with the right password. *)
Lemma login_ignores_case_and_padding_witness :
  let login_with email :=
    fst (app PostAuthLogin Demo.env
           (Demo.request None ""
              [("email", JStr email); ("password", JStr "secret1")])
           Demo.store) in
  login_with "A@x.com" = login_with " a@X.COM "
  /\ login_with "A@x.com"
     = json (DataSession (mkPublicUser 1 "a@x.com" 1000) "tok#1#604900").
Proof.
  cbv zeta. split; [|reflexivity].
  assert (Hne : forall s c, String c s <> EmptyString) by discriminate.
  exact (login_ignores_case_and_padding Demo.env
           (Demo.request None ""
              [("email", JStr "A@x.com"); ("password", JStr "secret1")])
           (Demo.request None ""
              [("email", JStr " a@X.COM "); ("password", JStr "secret1")])
           "A@x.com" " a@X.COM " "secret1" Demo.store
           eq_refl eq_refl eq_refl eq_refl eq_refl
           (Hne _ _) (Hne _ _) (Hne _ _) eq_refl).
Defined.

(** A listing and a login leave the two-account store's data alone. *)
Lemma reads_change_no_table_witness :
  same_data Demo.store
    (snd (app GetTodos Demo.env (Demo.request (Demo.bearer "tokA") "" [])
            Demo.store))
  /\ same_data Demo.store
       (snd (app PostAuthLogin Demo.env
               (Demo.request None ""
                  [("email", JStr "a@x.com"); ("password", JStr "secret1")])
               Demo.store)).
Proof.
  split.
  - apply reads_change_no_table. right. right. now left.
  - apply reads_change_no_table. now left.
Defined.

(** Account 1 marks its item done, twice. *)
Lemma update_own_item_twice_witness :
  let req :=
    Demo.request (Demo.bearer "tokA") "1" [("completed", JBool true)] in
  let first := app PatchTodo Demo.env req Demo.store in
  let second := app PatchTodo Demo.env req (snd first) in
  fst first = json (DataTodo (mkTodo 1 "buy milk" true 1 4000))
  /\ todos (snd first) = [mkTodo 1 "buy milk" true 1 4000; Demo.item_b]
  /\ fst second = fst first
  /\ todos (snd second) = todos (snd first).
Proof.
  cbv zeta.
  exact (update_own_item_twice Demo.env Demo.env
           (Demo.request (Demo.bearer "tokA") "1" [("completed", JBool true)])
           Demo.alice Demo.item_a true Demo.store
           eq_refl eq_refl (demo_alice_authenticated _ _)
           (demo_alice_authenticated _ _) demo_item_ids_unique
           (or_introl eq_refl) eq_refl eq_refl eq_refl).
Defined.

(** Account 1 deletes its item, lists, and deletes again. *)
Lemma delete_own_item_then_gone_witness :
  let req := Demo.request (Demo.bearer "tokA") "1" [] in
  let deleted := app DeleteTodoById Demo.env req Demo.store in
  fst deleted = json (MessageBody "할 일이 삭제되었습니다.")
  /\ todos (snd deleted) = [Demo.item_b]
  /\ ~ In Demo.item_a
         (response_todos (fst (app GetTodos Demo.env req (snd deleted))))
  /\ fst (app DeleteTodoById Demo.env req (snd deleted))
     = mkResponse 404 (ErrorBody "해당 할 일을 찾을 수 없습니다.")
  /\ todos (snd (app DeleteTodoById Demo.env req (snd deleted)))
     = todos (snd deleted).
Proof.
  cbv zeta.
  exact (delete_own_item_then_gone Demo.env Demo.env
           (Demo.request (Demo.bearer "tokA") "1" [])
           (Demo.request (Demo.bearer "tokA") "1" [])
           Demo.alice Demo.item_a Demo.store
           eq_refl eq_refl (demo_alice_authenticated _ _)
           (demo_alice_authenticated _ _) eq_refl demo_item_ids_unique
           (or_introl eq_refl) eq_refl eq_refl).
Defined.


(** Account 1 lists a table of three of its items and one of account 2. *)
Lemma list_is_own_items_newest_first_witness :
  let table :=
    [mkTodo 1 "old" false 1 100; mkTodo 2 "other" false 2 150;
     mkTodo 3 "new" true 1 300; mkTodo 4 "middle" false 1 200] in
  let s := mkStore [Demo.user_a; Demo.user_b] table 3 5 [] in
  exists rows,
    fst (app GetTodos Demo.env (Demo.request (Demo.bearer "tokA") "" []) s)
    = mkResponse 200 (DataTodos rows)
    /\ rows = [mkTodo 3 "new" true 1 300; mkTodo 4 "middle" false 1 200;
               mkTodo 1 "old" false 1 100]
    /\ StronglySorted not_older rows.
Proof.
  cbv zeta.
  destruct (list_is_own_items_newest_first Demo.env
              (Demo.request (Demo.bearer "tokA") "" []) Demo.alice
              (mkStore [Demo.user_a; Demo.user_b]
                 [mkTodo 1 "old" false 1 100; mkTodo 2 "other" false 2 150;
                  mkTodo 3 "new" true 1 300; mkTodo 4 "middle" false 1 200]
                 3 5 [])
              eq_refl (demo_alice_authenticated _ _))
    as (rows & Hanswer & _ & _ & Hsorted & _).
  exists rows. split; [exact Hanswer|]. split; [|exact Hsorted].
  vm_compute in Hanswer. now injection Hanswer as <-.
Defined.


(** Registering with the password 1234567, a number. *)
Lemma register_numeric_password_is_500_witness :
  app PostAuthRegister Demo.env
    (Demo.request None ""
       [("email", JStr "c@x.com"); ("password", JNum 1234567)])
    Demo.store
  = (mkResponse 500
       (ErrorDetails "서버 오류가 발생했습니다."
          "data must be a string or Buffer and salt must either be a salt string or a number of rounds"),
     Demo.store).
Proof.
  assert (Hn : 1234567%Z <> 0%Z) by discriminate.
  exact (register_numeric_password_is_500 Demo.env
           (Demo.request None ""
              [("email", JStr "c@x.com"); ("password", JNum 1234567)])
           "c@x.com" 1234567 Demo.store eq_refl eq_refl eq_refl eq_refl Hn).
Defined.

(** The store after a registration and a create on the empty database. *)
Lemma reachable_schema_witness :
  let s1 :=
    snd (app PostAuthRegister Demo.env
           (Demo.request None ""
              [("email", JStr "A@x.com"); ("password", JStr "secret1")])
           empty_store) in
  let s2 :=
    snd (app PostTodos Demo.env
           (Demo.request (Demo.bearer "tokA") "" [("text", JStr "buy milk")])
           s1) in
  todos s2 = [mkTodo 1 "buy milk" false 1 5000]
  /\ store_ok s2 /\ items_have_owner s2.
Proof.
  cbv zeta. split; [reflexivity|].
  apply reachable_schema.
  apply reachable_step, reachable_step, reachable_empty.
Defined.

(** [Bearer tokA junk] and [Bearer  tokA]. *)
Lemma header_pieces_beyond_second_witness :
  let send auth :=
    authenticateToken Demo.env (mkRequest (Some auth) "" (JObj [])) in
  send "Bearer tokA junk" = Next Demo.alice
  /\ send "Bearer  tokA"
     = Rejected (mkResponse 401 (ErrorBody "로그인이 필요합니다.")).
Proof.
  cbv zeta.
  destruct (header_pieces_beyond_second Demo.env "" (JObj [])
              "Bearer" "tokA" "junk" eq_refl eq_refl) as [Hlong _].
  destruct (header_pieces_beyond_second Demo.env "" (JObj [])
              "Bearer" "tokA" "tokA" eq_refl eq_refl) as [_ Hdouble].
  split; [|exact Hdouble].
  etransitivity; [exact Hlong | reflexivity].
Defined.

(** Account 2 deletes with the id of account 1's item: the item stays. *)
Lemma foreign_items_kept_witness :
  In Demo.item_a
    (todos (snd (app DeleteTodoById Demo.env
                   (Demo.request (Demo.bearer "tokB") "1" []) Demo.store))).
Proof.
  assert (Hauth : authenticateToken Demo.env
                    (Demo.request (Demo.bearer "tokB") "1" []) = Next Demo.bob)
    by reflexivity.
  assert (Hother : todo_user_id Demo.item_a <> userId Demo.bob)
    by discriminate.
  exact (foreign_items_kept DeleteTodoById Demo.env _ Demo.bob Demo.store
           Demo.item_a Hauth Hother (or_introl eq_refl)).
Defined.

(** What account 1's listing carries belongs to account 1. *)
Lemma responses_carry_own_items_witness :
  Forall (fun t => todo_user_id t = 1%Z)
    (response_todos
       (fst (app GetTodos Demo.env
               (Demo.request (Demo.bearer "tokA") "" []) Demo.store))).
Proof.
  apply Forall_forall. intros t Ht.
  assert (Hroute : route_handler GetTodos Demo.env
                     (Demo.request (Demo.bearer "tokA") "" []) <> None)
    by discriminate.
  exact (responses_carry_own_items GetTodos Demo.env _ Demo.alice Demo.store t
           Hroute (demo_alice_authenticated _ _) Ht).
Defined.
